(** * Marketplace scraper: field extractors, dataset cleaner, similarity
      deduplicator

    A shallow embedding of [src/scraper/utils.py],
    [src/data_processing/cleaner.py] and
    [src/scraper/indiamart_scraper.py], and the properties of the
    specification stated over it.

    Conventions of the embedding.
    - A Python [str] is a Rocq [string]: the UTF-8 bytes of the text.  The
      character classes of [re] and of [str.strip]/[str.split]/[str.lower]
      are the ones Python uses on Basic Latin; a byte above 127 (part of an
      encoded non-Latin character such as the rupee sign) is neither a digit,
      a space nor a word character, and [lower] leaves it alone.
    - A Python [float] is an exact rational [Q] kept in lowest terms; the
      rounding of binary floating point is outside the model.
    - A pandas frame is a list of rows under the default positional index
      (the pipeline builds its frames with [ignore_index=True]); a missing
      value (NaN or None) is one cell constructor. *)

From Stdlib Require Import String Ascii List ZArith QArith Qround Qabs Qminmax Lia Bool.
From stdpp Require Import base option list gmap strings pretty.

Local Open Scope string_scope.
Local Open Scope list_scope.

#[local] Set Warnings "-clear-no-such-hyp,-level-tolerance".

(** ** Characters and strings *)

Module Py.

Definition code (c : ascii) : N := N_of_ascii c.

Definition between (lo hi : N) (c : ascii) : bool :=
  ((lo <=? code c) && (code c <=? hi))%N.

(** [\d] *)
Definition isdigit (c : ascii) : bool := between 48 57 c.

(** [\s], [str.isspace]: tab, LF, VT, FF, CR, FS, GS, RS, US, space. *)
Definition isspace (c : ascii) : bool :=
  between 9 13 c || between 28 31 c || (code c =? 32)%N.

Definition isupper (c : ascii) : bool := between 65 90 c.
Definition islower (c : ascii) : bool := between 97 122 c.

(** [\w] *)
Definition isword (c : ascii) : bool :=
  isdigit c || isupper c || islower c || (code c =? 95)%N.

Definition lower_char (c : ascii) : ascii :=
  if isupper c then ascii_of_N (code c + 32) else c.

(** [s.lower()] *)
Fixpoint lower (s : string) : string :=
  match s with
  | EmptyString => EmptyString
  | String c s' => String (lower_char c) (lower s')
  end.

(** [s.lstrip()] *)
Fixpoint lstrip (s : string) : string :=
  match s with
  | EmptyString => EmptyString
  | String c s' => if isspace c then lstrip s' else s
  end.

(** [s.rstrip()] *)
Fixpoint rstrip (s : string) : string :=
  match s with
  | EmptyString => EmptyString
  | String c s' =>
      match rstrip s' with
      | EmptyString => if isspace c then EmptyString else String c EmptyString
      | t => String c t
      end
  end.

(** [s.strip()] *)
Definition strip (s : string) : string := rstrip (lstrip s).

(** [s.replace(c, '')] for a one-character [c] *)
Fixpoint remove_char (x : ascii) (s : string) : string :=
  match s with
  | EmptyString => EmptyString
  | String c s' =>
      if Ascii.eqb c x then remove_char x s' else String c (remove_char x s')
  end.

(** [s.startswith(p)] *)
Fixpoint startswith (p s : string) : bool :=
  match p, s with
  | EmptyString, _ => true
  | String a p', String b s' => Ascii.eqb a b && startswith p' s'
  | String _ _, EmptyString => false
  end.

(** [p in s] *)
Fixpoint contains (p s : string) : bool :=
  startswith p s ||
  match s with
  | EmptyString => false
  | String _ s' => contains p s'
  end.

(** The first [n] characters of [s]. *)
Fixpoint take (n : nat) (s : string) : string :=
  match n, s with
  | S n', String c s' => String c (take n' s')
  | _, _ => EmptyString
  end.

(** [s.split()]: the maximal runs of non-space characters.  [cur] is the
    word being read, reversed. *)
Fixpoint rev_string (acc s : string) : string :=
  match s with
  | EmptyString => acc
  | String c s' => rev_string (String c acc) s'
  end.

Definition flush (cur : string) (out : list string) : list string :=
  match cur with
  | EmptyString => out
  | _ => rev_string EmptyString cur :: out
  end.

Fixpoint split_go (cur : string) (s : string) : list string :=
  match s with
  | EmptyString => flush cur []
  | String c s' =>
      if isspace c then flush cur (split_go EmptyString s')
      else split_go (String c cur) s'
  end.

Definition split (s : string) : list string := split_go EmptyString s.

(** Truthiness of a string: [not s] is true on the empty string only. *)
Definition nonempty (s : string) : bool :=
  match s with EmptyString => false | _ => true end.

End Py.

(** ** Regular expressions

    The patterns of the source are written in this syntax and run by a
    backtracking matcher with the priorities of Python's [re]: alternatives
    left to right, repetitions greedy, [search] at the leftmost position that
    matches. *)

Module Re.

Inductive regex : Type :=
| Eps
| Chr (p : ascii -> bool)
| Seq (r1 r2 : regex)
| Alt (r1 r2 : regex)
| Star (r : regex)
| Grp (i : nat) (r : regex)
| Eos.

(** [r+], [r?] and a literal text. *)
Definition Plus (r : regex) : regex := Seq r (Star r).
Definition Opt (r : regex) : regex := Alt r Eps.
Fixpoint Lit (s : string) : regex :=
  match s with
  | EmptyString => Eps
  | String c s' => Seq (Chr (Ascii.eqb c)) (Lit s')
  end.

(** Captured groups: group number to captured text. *)
Abbreviation groups := (gmap nat string).
Abbreviation cont := (string -> groups -> option groups).

(** Greedy repetition of [body]: one more round when it matches and
    consumes something, else go on with [k].  [n] bounds the rounds by the
    length of the remaining text. *)
Fixpoint star_loop (body : string -> groups -> cont -> option groups)
    (k : cont) (n : nat) (s : string) (g : groups) : option groups :=
  match n with
  | O => k s g
  | S n' =>
      match body s g (fun s1 g1 =>
                       if (String.length s1 <? String.length s)%nat
                       then star_loop body k n' s1 g1 else None) with
      | Some x => Some x
      | None => k s g
      end
  end.

(** [$]: the end of the text, or just before a final newline. *)
Definition at_end (s : string) : bool :=
  match s with
  | EmptyString => true
  | String c EmptyString => (Py.code c =? 10)%N
  | _ => false
  end.

(** [rmatch r s g k]: match [r] at the front of [s], then continue with [k]
    on the rest; [None] when every way of matching fails. *)
Fixpoint rmatch (r : regex) (s : string) (g : groups) (k : cont)
    {struct r} : option groups :=
  match r with
  | Eps => k s g
  | Chr p =>
      match s with
      | String c s' => if p c then k s' g else None
      | EmptyString => None
      end
  | Seq r1 r2 => rmatch r1 s g (fun s1 g1 => rmatch r2 s1 g1 k)
  | Alt r1 r2 =>
      match rmatch r1 s g k with
      | Some x => Some x
      | None => rmatch r2 s g k
      end
  | Star r1 => star_loop (rmatch r1) k (String.length s) s g
  | Grp i r1 =>
      rmatch r1 s g (fun s1 g1 =>
        k s1 (<[i := Py.take (String.length s - String.length s1) s]> g1))
  | Eos => if at_end s then k s g else None
  end.

Definition accept : cont := fun _ g => Some g.

(** [re.match(r, s)] *)
Definition re_match (r : regex) (s : string) : option groups :=
  rmatch r s ∅ accept.

(** [re.search(r, s)] *)
Fixpoint search (r : regex) (s : string) : option groups :=
  match re_match r s with
  | Some g => Some g
  | None =>
      match s with
      | EmptyString => None
      | String _ s' => search r s'
      end
  end.

(** [m.group(i)] *)
Definition group (i : nat) (g : groups) : string := default "" (g !! i).

End Re.

(** ** Results of fallible code *)

Inductive exn : Type :=
| ValueError
| KeyError (column : string)
| TypeError.

Inductive result (A : Type) : Type :=
| Ok (a : A)
| Raise (e : exn).
Arguments Ok {A} a.
Arguments Raise {A} e.

#[global] Instance result_bind : MBind result := fun A B f x =>
  match x with
  | Ok a => f a
  | Raise e => Raise e
  end.
#[global] Instance result_ret : MRet result := fun A a => Ok a.

(** ** [src/scraper/utils.py] *)

Module Utils.
Import Re.

Notation "a ⋅ b" := (Seq a b) (at level 41, right associativity).

(** [float(s)] on a decimal numeral [digits] or [digits.digits], the only
    texts the price patterns capture once the commas are removed; any other
    text is a [ValueError]. *)
Fixpoint digits_value (acc : Z) (s : string) : option Z :=
  match s with
  | EmptyString => Some acc
  | String c s' =>
      if Py.isdigit c
      then digits_value (10 * acc + (Z.of_N (Py.code c) - 48)) s'
      else None
  end.

Fixpoint split_dot (s : string) : string * option string :=
  match s with
  | EmptyString => (EmptyString, None)
  | String c s' =>
      if Ascii.eqb c "." then (EmptyString, Some s')
      else let '(a, b) := split_dot s' in (String c a, b)
  end.

Definition float (s : string) : result Q :=
  match split_dot s with
  | (EmptyString, _) => Raise ValueError
  | (ip, None) =>
      match digits_value 0 ip with
      | Some n => Ok (inject_Z n)
      | None => Raise ValueError
      end
  | (_, Some EmptyString) => Raise ValueError
  | (ip, Some fp) =>
      match digits_value 0 ip, digits_value 0 fp with
      | Some n, Some f =>
          Ok (Qred (inject_Z n + (f # Pos.pow 10 (Pos.of_nat (String.length fp))))%Q)
      | _, _ => Raise ValueError
      end
  end.

(** The dictionary [clean_price_text] returns; the keys [min_price] and
    [max_price] exist on a range only. *)
Record PriceInfo : Type := {
  raw_price : string;
  numeric_price : option Q;
  min_price : option Q;
  max_price : option Q;
  currency : string;
  unit : string;
  is_range : bool
}.

(** [\d+(?:,\d+)*(?:\.\d+)?] *)
Definition digits : regex := Plus (Chr Py.isdigit).
Definition number : regex :=
  digits ⋅ Star (Chr (Ascii.eqb ",") ⋅ digits)
         ⋅ Opt (Chr (Ascii.eqb ".") ⋅ digits).

Definition spaces : regex := Star (Chr Py.isspace).
Definition rupee : regex := Opt (Lit "₹").

(** The class [[-to]] under [re.I]: one character, a dash, a [t] or an [o]
    in either case. *)
Definition dash_t_o (c : ascii) : bool :=
  let l := Py.lower_char c in
  Ascii.eqb l "-" || Ascii.eqb l "t" || Ascii.eqb l "o".

(** [₹?\s*(\d+(?:,\d+)*(?:\.\d+)?)\s*[-to]\s*₹?\s*(\d+(?:,\d+)*(?:\.\d+)?)]
    with [re.I] *)
Definition range_pattern : regex :=
  rupee ⋅ spaces ⋅ Grp 1 number ⋅ spaces ⋅ Chr dash_t_o ⋅ spaces
        ⋅ rupee ⋅ spaces ⋅ Grp 2 number.

(** [₹?\s*(\d+(?:,\d+)*(?:\.\d+)?)] *)
Definition price_pattern : regex := rupee ⋅ spaces ⋅ Grp 1 number.

(** [per\s+(\w+)], [/(\w+)], [(\w+)\s*$] *)
Definition word : regex := Plus (Chr Py.isword).
Definition unit_patterns : list regex :=
  [ Lit "per" ⋅ Plus (Chr Py.isspace) ⋅ Grp 1 word;
    Lit "/" ⋅ Grp 1 word;
    Grp 1 word ⋅ spaces ⋅ Eos ].

Definition unit_mapping : gmap string string :=
  list_to_map
    [ ("pc", "piece"); ("pcs", "piece"); ("piece", "piece");
      ("kg", "kilogram"); ("kilogram", "kilogram");
      ("gram", "gram"); ("gm", "gram");
      ("ton", "ton"); ("tonne", "ton");
      ("meter", "meter"); ("metre", "meter"); ("m", "meter");
      ("feet", "feet"); ("foot", "feet"); ("ft", "feet");
      ("litre", "liter"); ("liter", "liter"); ("l", "liter");
      ("dozen", "dozen"); ("pair", "pair"); ("set", "set") ].

(** [d.get(k, k)] *)
Definition get_or_self (d : gmap string string) (k : string) : string :=
  default k (d !! k).

(** The loop of [extract_price_unit]: the first pattern that matches
    decides. *)
Fixpoint first_unit (patterns : list regex) (price_lower : string) : string :=
  match patterns with
  | [] => ""
  | pattern :: rest =>
      match search pattern price_lower with
      | Some m => get_or_self unit_mapping (group 1 m)
      | None => first_unit rest price_lower
      end
  end.

Definition extract_price_unit (price_text : string) : string :=
  if negb (Py.nonempty price_text) then ""
  else first_unit unit_patterns (Py.lower price_text).

Definition clean_price_text (price_text : string) : result PriceInfo :=
  if negb (Py.nonempty price_text) then
    Ok {| raw_price := ""; numeric_price := None;
          min_price := None; max_price := None;
          currency := "INR"; unit := ""; is_range := false |}
  else
    let price_text := Py.strip price_text in
    match search range_pattern price_text with
    | Some range_match =>
        min_price ← float (Py.remove_char "," (group 1 range_match));
        max_price ← float (Py.remove_char "," (group 2 range_match));
        let avg_price := Qred ((min_price + max_price) / 2)%Q in
        Ok {| raw_price := price_text; numeric_price := Some avg_price;
              min_price := Some min_price; max_price := Some max_price;
              currency := "INR"; unit := extract_price_unit price_text;
              is_range := true |}
    | None =>
        numeric_price ←
          match search price_pattern price_text with
          | Some price_match =>
              v ← float (Py.remove_char "," (group 1 price_match)); Ok (Some v)
          | None => Ok None
          end;
        Ok {| raw_price := price_text; numeric_price := numeric_price;
              min_price := None; max_price := None;
              currency := "INR"; unit := extract_price_unit price_text;
              is_range := false |}
    end.

(** The dictionary [normalize_location] returns. *)
Record LocationInfo : Type := {
  raw_location : string;
  city : string;
  state : string;
  normalized : string
}.

(** [indian_states], in the order the dictionary is written: Python
    iterates a dictionary in insertion order. *)
Definition indian_states : list (string * string) :=
  [ ("andhra pradesh", "Andhra Pradesh"); ("ap", "Andhra Pradesh");
    ("arunachal pradesh", "Arunachal Pradesh");
    ("assam", "Assam");
    ("bihar", "Bihar");
    ("chhattisgarh", "Chhattisgarh");
    ("goa", "Goa");
    ("gujarat", "Gujarat");
    ("haryana", "Haryana");
    ("himachal pradesh", "Himachal Pradesh"); ("hp", "Himachal Pradesh");
    ("jharkhand", "Jharkhand");
    ("karnataka", "Karnataka");
    ("kerala", "Kerala");
    ("madhya pradesh", "Madhya Pradesh"); ("mp", "Madhya Pradesh");
    ("maharashtra", "Maharashtra");
    ("manipur", "Manipur");
    ("meghalaya", "Meghalaya");
    ("mizoram", "Mizoram");
    ("nagaland", "Nagaland");
    ("odisha", "Odisha"); ("orissa", "Odisha");
    ("punjab", "Punjab");
    ("rajasthan", "Rajasthan");
    ("sikkim", "Sikkim");
    ("tamil nadu", "Tamil Nadu"); ("tn", "Tamil Nadu");
    ("telangana", "Telangana");
    ("tripura", "Tripura");
    ("uttar pradesh", "Uttar Pradesh"); ("up", "Uttar Pradesh");
    ("uttarakhand", "Uttarakhand");
    ("west bengal", "West Bengal"); ("wb", "West Bengal");
    ("delhi", "Delhi"); ("new delhi", "Delhi");
    ("mumbai", "Maharashtra"); ("bangalore", "Karnataka");
    ("chennai", "Tamil Nadu"); ("kolkata", "West Bengal");
    ("hyderabad", "Telangana"); ("pune", "Maharashtra");
    ("ahmedabad", "Gujarat"); ("surat", "Gujarat");
    ("jaipur", "Rajasthan"); ("lucknow", "Uttar Pradesh");
    ("kanpur", "Uttar Pradesh"); ("nagpur", "Maharashtra") ].

(** The loop over [indian_states.items()]: the first key found inside the
    text decides, and the loop stops there. *)
Fixpoint first_state (items : list (string * string)) (location_lower : string)
    : string :=
  match items with
  | [] => ""
  | (key, state) :: rest =>
      if Py.contains key location_lower then state
      else first_state rest location_lower
  end.

(** [^([^,]+)]; the anchor is implied by [re.match]. *)
Definition city_pattern : regex :=
  Grp 1 (Plus (Chr (fun c => negb (Ascii.eqb c ",")))).

Definition normalize_location (location_text : string) : LocationInfo :=
  if negb (Py.nonempty location_text) then
    {| raw_location := ""; city := ""; state := ""; normalized := "" |}
  else
    let location_text := Py.strip location_text in
    let location_lower := Py.lower location_text in
    let extracted_state := first_state indian_states location_lower in
    let city :=
      match re_match city_pattern location_text with
      | Some city_match => Py.strip (group 1 city_match)
      | None => ""
      end in
    {| raw_location := location_text;
       city := city;
       state := extracted_state;
       normalized :=
         if Py.nonempty city && Py.nonempty extracted_state
         then city ++ ", " ++ extracted_state
         else location_text |}.

(** [set(text.lower().split())] *)
Definition word_set (text : string) : gset string :=
  list_to_set (Py.split (Py.lower text)).

Definition calculate_text_similarity (text1 text2 : string) : Q :=
  if negb (Py.nonempty text1) || negb (Py.nonempty text2) then 0
  else
    let words1 := word_set text1 in
    let words2 := word_set text2 in
    let intersection := size (words1 ∩ words2) in
    let union := size (words1 ∪ words2) in
    if (0 <? union)%nat
    then Qred (inject_Z (Z.of_nat intersection) / inject_Z (Z.of_nat union))
    else 0.

(** [re.sub(r'[^\w\s]', ' ', s)]: every character that is neither a word
    character nor white space becomes a space. *)
Fixpoint blank_punctuation (s : string) : string :=
  match s with
  | EmptyString => EmptyString
  | String c s' =>
      String (if negb (Py.isword c || Py.isspace c) then " "%char else c)
             (blank_punctuation s')
  end.

Definition stop_words : gset string :=
  list_to_set
    [ "and"; "or"; "the"; "a"; "an"; "in"; "on"; "at"; "to"; "for";
      "of"; "with"; "by"; "from"; "as"; "is"; "are"; "was"; "were";
      "be"; "been"; "have"; "has"; "had"; "do"; "does"; "did"; "will";
      "would"; "could"; "should"; "can"; "may"; "might"; "must"; "shall" ].

Definition extract_keywords_from_title (title : string) (min_length : Z)
    : list string :=
  if negb (Py.nonempty title) then []
  else
    let clean_title := blank_punctuation (Py.lower title) in
    let words := Py.split clean_title in
    filter (fun word =>
              (min_length <= Z.of_nat (String.length word))%Z /\
              word ∉ stop_words)
           words.

End Utils.

(** ** Data frames *)

Module Frame.

(** A cell of a frame.  [Missing] stands for NaN and None alike: pandas'
    [isna], [fillna] and [notna] do not tell them apart. *)
Inductive cell : Type :=
| Str (s : string)
| Num (q : Q)
| Flag (b : bool)
| Missing.

#[global] Instance Q_eq_dec : EqDecision Q.
Proof. solve_decision. Defined.
#[global] Instance cell_eq_dec : EqDecision cell.
Proof. solve_decision. Defined.

Abbreviation row := (gmap string cell).

(** The columns in their order, and the rows in index order; the index
    label of a row is its position. *)
Record DataFrame : Type := {
  columns : list string;
  rows : list row
}.

(** [col in df.columns] *)
Definition has_column (col : string) (df : DataFrame) : bool :=
  bool_decide (col ∈ columns df).

(** The cell of a row under a column of the frame. *)
Definition get (col : string) (r : row) : cell := default Missing (r !! col).

(** [row[col]], [df[col]]: a [KeyError] when the frame has no such column. *)
Definition getitem (df : DataFrame) (col : string) (r : row) : result cell :=
  if has_column col df then Ok (get col r) else Raise (KeyError col).

(** [df[col] = f(row)]: overwrite the column, or add it after the others. *)
Definition set_column (col : string) (f : row -> cell) (df : DataFrame)
    : DataFrame :=
  {| columns := if has_column col df then columns df else columns df ++ [col];
     rows := (fun r => <[col := f r]> r) <$> rows df |}.

(** [df.drop(col, axis=1)] on a column the frame has. *)
Definition drop_column (col : string) (df : DataFrame) : DataFrame :=
  {| columns := filter (fun c => c ≠ col) (columns df);
     rows := delete col <$> rows df |}.

(** [pd.isna] *)
Definition isna (c : cell) : bool :=
  match c with Missing => true | _ => false end.

(** [str(x)], [series.astype(str)] on one cell; [str_of_float] is the text
    Python prints for a float. *)
Definition astype_str (str_of_float : Q -> string) (c : cell) : string :=
  match c with
  | Str s => s
  | Num q => str_of_float q
  | Flag true => "True"
  | Flag false => "False"
  | Missing => "nan"
  end.

(** [series.fillna(v)] on one cell *)
Definition fillna (v : cell) (c : cell) : cell :=
  if isna c then v else c.

(** [series.str.lower()] on one cell of an object column: a value that is
    not a string becomes NaN. *)
Definition str_lower (c : cell) : cell :=
  match c with Str s => Str (Py.lower s) | _ => Missing end.

(** [a + b] on two cells of object columns of strings: NaN when either is
    NaN. *)
Definition str_add (a b : cell) : cell :=
  match a, b with
  | Str x, Str y => Str (x ++ y)
  | _, _ => Missing
  end.

(** The rows [df.drop_duplicates(subset=col, keep='first')] keeps: a row
    stays when no row before it has the same value under [col]. *)
Fixpoint keep_first (col : string) (seen : list cell) (rs : list row)
    : list row :=
  match rs with
  | [] => []
  | r :: rest =>
      if bool_decide (get col r ∈ seen) then keep_first col seen rest
      else r :: keep_first col (get col r :: seen) rest
  end.

Definition drop_duplicates (col : string) (df : DataFrame) : DataFrame :=
  {| columns := columns df; rows := keep_first col [] (rows df) |}.

End Frame.

(** ** [src/data_processing/cleaner.py] *)

Module Cleaner.
Import Frame.

(** [re.sub(r'\s+', ' ', s)]: every run of white space becomes one space.
    [in_run] tells that the previous character was white space. *)
Fixpoint collapse_spaces (in_run : bool) (s : string) : string :=
  match s with
  | EmptyString => EmptyString
  | String c s' =>
      if Py.isspace c then
        if in_run then collapse_spaces true s'
        else String " " (collapse_spaces true s')
      else String c (collapse_spaces false s')
  end.

(** [s.title()]: the first letter of each run of letters in upper case, the
    others in lower case. *)
Definition upper_char (c : ascii) : ascii :=
  if Py.islower c then ascii_of_N (Py.code c - 32) else c.

Fixpoint title_go (prev_cased : bool) (s : string) : string :=
  match s with
  | EmptyString => EmptyString
  | String c s' =>
      if Py.isupper c || Py.islower c then
        String (if prev_cased then Py.lower_char c else upper_char c)
               (title_go true s')
      else String c (title_go false s')
  end.

Definition title (s : string) : string := title_go false s.

(** [series.sort_values()] on the present values *)
Fixpoint insert_sorted (x : Q) (l : list Q) : list Q :=
  match l with
  | [] => [x]
  | y :: l' => if Qle_bool x y then x :: l else y :: insert_sorted x l'
  end.

Definition sort_values (l : list Q) : list Q := foldr insert_sorted [] l.

(** [series.quantile(q)]: linear interpolation between the two nearest
    ranks of the present values; NaN when there is none. *)
Definition quantile (q : Q) (values : list Q) : option Q :=
  match sort_values values with
  | [] => None
  | (v0 :: _) as sorted =>
      let h := (inject_Z (Z.of_nat (length sorted) - 1) * q)%Q in
      let lo := Qfloor h in
      let a := nth (Z.to_nat lo) sorted v0 in
      let b := nth (S (Z.to_nat lo)) sorted a in
      Some (Qred (a + (h - inject_Z lo) * (b - a))%Q)
  end.

Definition unit_mapping : gmap string string :=
  list_to_map
    [ ("piece", "piece"); ("pieces", "piece"); ("pc", "piece");
      ("pcs", "piece"); ("unit", "piece");
      ("kg", "kilogram"); ("kilogram", "kilogram");
      ("gram", "gram");
      ("ton", "ton"); ("tonne", "ton");
      ("meter", "meter"); ("metre", "meter"); ("m", "meter");
      ("feet", "feet"); ("foot", "feet");
      ("inch", "inch");
      ("litre", "liter"); ("liter", "liter"); ("l", "liter") ].

(** The keys of [standardize_locations]: a Python set. *)
Definition indian_states : gset string :=
  list_to_set
    [ "maharashtra"; "uttar pradesh"; "up"; "karnataka"; "tamil nadu"; "tn";
      "gujarat"; "rajasthan"; "west bengal"; "wb"; "madhya pradesh"; "mp";
      "andhra pradesh"; "ap"; "odisha"; "orissa"; "telangana"; "kerala";
      "punjab"; "haryana"; "jharkhand"; "bihar"; "chhattisgarh"; "uttarakhand";
      "himachal pradesh"; "hp"; "assam"; "jammu and kashmir"; "j&k";
      "delhi"; "new delhi"; "mumbai"; "bangalore"; "chennai"; "kolkata";
      "hyderabad"; "pune"; "ahmedabad"; "surat"; "jaipur"; "lucknow";
      "kanpur"; "nagpur"; "visakhapatnam"; "indore"; "thane"; "bhopal" ].

Section Pipeline.

(** What the host gives and the repository does not fix: the text Python
    prints for a float, the number pandas reads from a text, and the order
    in which this run of the interpreter iterates the set
    [indian_states]. *)
Variable str_of_float : Q -> string.
Variable to_numeric_text : string -> option Q.
Variable states_order : list string.

Let astype_str := Frame.astype_str str_of_float.

(** The four statements of the loop body of [clean_text_columns], on one
    cell. *)
Definition clean_text_cell (c : cell) : cell :=
  let s := astype_str c in
  let s := Py.strip s in
  let s := collapse_spaces false s in
  if bool_decide (s ∈ ["nan"; "None"; ""]) then Missing else Str s.

Definition text_columns : list string :=
  ["title"; "supplier_name"; "location"; "description"].

Definition clean_text_columns (df : DataFrame) : DataFrame :=
  foldl (fun df col =>
           if has_column col df
           then set_column col (fun r => clean_text_cell (get col r)) df
           else df)
        df text_columns.

(** [pd.to_numeric(series, errors='coerce')] on one cell *)
Definition to_numeric (c : cell) : cell :=
  match c with
  | Num q => Num q
  | Str s => match to_numeric_text s with Some q => Num q | None => Missing end
  | Flag b => Num (if b then 1 else 0)
  | Missing => Missing
  end.

Definition present_values (col : string) (df : DataFrame) : list Q :=
  omap (fun r => match get col r with Num q => Some q | _ => None end)
       (rows df).

(** [x < lo | x > hi]; a comparison with NaN is false. *)
Definition outside (lo hi : option Q) (c : cell) : bool :=
  match c with
  | Num x =>
      match lo with Some l => negb (Qle_bool l x) | None => false end
      || match hi with Some h => negb (Qle_bool x h) | None => false end
  | _ => false
  end.

(** [series.map(unit_mapping).fillna(series)] on one cell *)
Definition map_unit (c : cell) : cell :=
  let mapped :=
    match c with
    | Str s => match unit_mapping !! s with Some u => Str u | None => Missing end
    | _ => Missing
    end in
  if isna mapped then c else mapped.

Definition standardize_prices (df : DataFrame) : DataFrame :=
  if negb (has_column "numeric_price" df) then df
  else
    let df := set_column "numeric_price"
                (fun r => to_numeric (get "numeric_price" r)) df in
    let price_q1 := quantile (1 # 100) (present_values "numeric_price" df) in
    let price_q99 := quantile (99 # 100) (present_values "numeric_price" df) in
    let df := set_column "price_outlier"
                (fun r => Flag (outside price_q1 price_q99
                                        (get "numeric_price" r))) df in
    if has_column "price_unit" df then
      let df := set_column "price_unit"
                  (fun r => str_lower (get "price_unit" r)) df in
      set_column "standardized_unit"
        (fun r => map_unit (get "price_unit" r)) df
    else df.

(** The loop of [extract_state] over the set, in this run's order. *)
Fixpoint first_key (keys : list string) (location_lower : string) : cell :=
  match keys with
  | [] => Missing
  | state :: rest =>
      if Py.contains state location_lower then Str (title state)
      else first_key rest location_lower
  end.

Definition extract_state (location_text : cell) : cell :=
  if isna location_text then Missing
  else first_key states_order (Py.lower (astype_str location_text)).

Definition standardize_locations (df : DataFrame) : DataFrame :=
  if negb (has_column "location" df) then df
  else set_column "extracted_state"
         (fun r => extract_state (get "location" r)) df.

(** The composite key of one row. *)
Definition dedup_key (title supplier_name : cell) : cell :=
  str_add (str_add (str_lower (fillna (Str "") title)) (Str "_"))
          (str_lower (fillna (Str "") supplier_name)).

(** [remove_duplicates]: the frame it returns.  (The key column it adds to
    the frame it was given stays there; the returned copy drops it.) *)
Definition remove_duplicates (df : DataFrame) : result DataFrame :=
  if negb (has_column "title" df) then Raise (KeyError "title")
  else if negb (has_column "supplier_name" df)
  then Raise (KeyError "supplier_name")
  else
    let df := set_column "dedup_key"
                (fun r => dedup_key (get "title" r) (get "supplier_name" r))
                df in
    let df_dedup := drop_duplicates "dedup_key" df in
    let df_dedup := drop_column "dedup_key" df_dedup in
    Ok df_dedup.

(** [clean_dataset]: the cleaned frame.  The quality report is computed from
    it afterwards and does not change it. *)
Definition clean_dataset (df : DataFrame) : result DataFrame :=
  let df := clean_text_columns df in
  let df := standardize_prices df in
  let df := standardize_locations df in
  remove_duplicates df.

End Pipeline.

End Cleaner.


(** ** [detect_duplicate_products] of [src/scraper/utils.py] *)

Module Similarity.
Import Frame.

Fixpoint foldM {S A : Type} (f : S -> A -> result S) (s : S) (l : list A)
    : result S :=
  match l with
  | [] => Ok s
  | a :: l' => s' ← f s a; foldM f s' l'
  end.

(** [series.unique()]: the values in the order of their first occurrence. *)
Fixpoint unique_go (seen : list cell) (l : list cell) : list cell :=
  match l with
  | [] => []
  | c :: l' =>
      if bool_decide (c ∈ seen) then unique_go seen l'
      else c :: unique_go (c :: seen) l'
  end.

Definition unique (l : list cell) : list cell := unique_go [] l.

(** The rows with their index labels. *)
Definition iterrows (rs : list row) : list (nat * row) := imap pair rs.

(** A cell read as a number in a comparison or in arithmetic; a string
    there is a [TypeError]. *)
Definition as_number (c : cell) : result Q :=
  match c with
  | Num q => Ok q
  | Flag b => Ok (if b then 1 else 0)%Q
  | Str _ | Missing => Raise TypeError
  end.

(** [x[:50]], evaluated for the log line: only a string can be sliced. *)
Definition slice50 (c : cell) : result string :=
  match c with
  | Str s => Ok (Py.take 50 s)
  | _ => Raise TypeError
  end.

Section Detect.

Variable str_of_float : Q -> string.
Variable df : DataFrame.
Variable similarity_threshold : Q.

Definition title_similarity (row1 row2 : row) : result Q :=
  t1 ← getitem df "title" row1;
  t2 ← getitem df "title" row2;
  Ok (Utils.calculate_text_similarity (astype_str str_of_float t1)
                                      (astype_str str_of_float t2)).

Definition price_similarity (row1 row2 : row) : result Q :=
  p1 ← getitem df "numeric_price" row1;
  if isna p1 then Ok 0%Q else
  p2 ← getitem df "numeric_price" row2;
  if isna p2 then Ok 0%Q else
  n1 ← as_number p1;
  if Qle_bool n1 0 then Ok 0%Q else
  n2 ← as_number p2;
  if Qle_bool n2 0 then Ok 0%Q else
  let price_diff := Qabs (n1 - n2) in
  let avg_price := ((n1 + n2) / 2)%Q in
  let price_sim := (1 - price_diff / avg_price)%Q in
  Ok (Qred (Qmax 0 price_sim)).

Definition combined_similarity (row1 row2 : row) : result Q :=
  title_sim ← title_similarity row1 row2;
  price_sim ← price_similarity row1 row2;
  Ok (Qred (title_sim * (8 # 10) + price_sim * (2 # 10))%Q).

(** The body of the inner loop, for the pair of [row1] at label [i] and
    [row2] at label [j]; [flags] holds the labels whose [is_duplicate] is
    set. *)
Definition compare (i : nat) (row1 : row) (flags : gset nat)
    (jrow : nat * row) : result (gset nat) :=
  let '(j, row2) := jrow in
  if (j <=? i)%nat || bool_decide (j ∈ flags) then Ok flags
  else
    combined_sim ← combined_similarity row1 row2;
    if Qle_bool similarity_threshold combined_sim then
      _ ← slice50 (get "title" row1);
      _ ← slice50 (get "title" row2);
      Ok ({[ j ]} ∪ flags)
    else Ok flags.

(** The body of the outer loop over the supplier's rows. *)
Definition compare_all (supplier_products : list (nat * row))
    (flags : gset nat) (irow : nat * row) : result (gset nat) :=
  let '(i, row1) := irow in
  if bool_decide (i ∈ flags) then Ok flags
  else foldM (compare i row1) flags supplier_products.

(** The rows of one supplier, [df[df['supplier_name'] == supplier]]. *)
Definition supplier_rows (supplier : cell) : list (nat * row) :=
  filter (fun ir => get "supplier_name" ir.2 = supplier) (iterrows (rows df)).

(** The body of the loop over the suppliers. *)
Definition per_supplier (flags : gset nat) (supplier : cell)
    : result (gset nat) :=
  if isna supplier then Ok flags
  else
    let supplier_products := supplier_rows supplier in
    if (length supplier_products <? 2)%nat then Ok flags
    else foldM (compare_all supplier_products) flags supplier_products.

(** [df['is_duplicate']] written from the flagged labels. *)
Definition with_flags (flags : gset nat) : DataFrame :=
  {| columns := if has_column "is_duplicate" df then columns df
                else columns df ++ ["is_duplicate"];
     rows := imap (fun i r =>
                     <["is_duplicate" := Flag (bool_decide (i ∈ flags))]> r)
                  (rows df) |}.

Definition detect_duplicate_products : result DataFrame :=
  if (length (rows df) <? 2)%nat then Ok (with_flags ∅)
  else
    if negb (has_column "supplier_name" df)
    then Raise (KeyError "supplier_name")
    else
      flags ← foldM per_supplier ∅
                 (unique (get "supplier_name" <$> rows df));
      Ok (with_flags flags).

End Detect.

End Similarity.

(** ** [get_product_urls] of [src/scraper/indiamart_scraper.py] *)

Module Scraper.

(** A parsed page, seen through [soup.select]: the elements a selector
    matches, each with its attributes. *)
Abbreviation element := (gmap string string).
Abbreviation soup := (string -> list element).

Definition base_url : string := "https://www.indiamart.com".

Definition quote : string := String "034"%char EmptyString.

Definition link_selectors : list string :=
  [ ".prd a"; ".lst a"; ".product-item a";
    ("a[href*=" ++ quote ++ "/proddetail/" ++ quote ++ "]")%string ].

Section Urls.

(** [urllib.parse.urljoin] *)
Variable urljoin : string -> string -> string.

(** The body of the loop over the links of one selector. *)
Definition add_link (urls : list string) (link : element) : list string :=
  match link !! "href" with
  | Some href =>
      if Py.nonempty href then
        let href := if negb (Py.startswith "http" href)
                    then urljoin base_url href else href in
        urls ++ [href]
      else urls
  | None => urls
  end.

(** [get_product_urls]; [list(set(urls))] is kept as the set it lists. *)
Definition get_product_urls (page : soup) : gset string :=
  let urls :=
    foldl (fun urls selector => foldl add_link urls (page selector))
          [] link_selectors in
  list_to_set urls.

End Urls.

(** [IndiaMartScraper.clean_text] *)
Definition clean_text (text : string) : string :=
  if negb (Py.nonempty text) then ""
  else Cleaner.collapse_spaces false (Py.strip text).

(** The dictionary [IndiaMartScraper.extract_price] returns. *)
Record ScrapedPrice : Type := {
  raw_price : string;
  numeric_price : option Q;
  currency : string;
  unit : string
}.

(** The price pattern as the file has it: the two characters [â‚], an
    optional [¹], white space and a number. *)
Definition price_pattern : Re.regex :=
  Re.Seq (Re.Lit "â‚")
    (Re.Seq (Re.Opt (Re.Lit "¹"))
       (Re.Seq Utils.spaces (Re.Grp 1 Utils.number))).

(** [per\s+(\w+)|/(\w+)] *)
Definition unit_pattern : Re.regex :=
  Re.Alt (Re.Seq (Re.Lit "per")
            (Re.Seq (Re.Plus (Re.Chr Py.isspace)) (Re.Grp 1 Utils.word)))
         (Re.Seq (Re.Lit "/") (Re.Grp 2 Utils.word)).

Definition extract_price (price_text : string) : result ScrapedPrice :=
  if negb (Py.nonempty price_text) then
    Ok {| raw_price := ""; numeric_price := None; currency := "INR";
          unit := "" |}
  else
    let price_text := clean_text price_text in
    numeric_price ←
      match Re.search price_pattern price_text with
      | Some price_match =>
          v ← Utils.float (Py.remove_char "," (Re.group 1 price_match));
          Ok (Some v)
      | None => Ok None
      end;
    let unit :=
      match Re.search unit_pattern (Py.lower price_text) with
      | Some unit_match =>
          if Py.nonempty (Re.group 1 unit_match) then Re.group 1 unit_match
          else Re.group 2 unit_match
      | None => ""
      end in
    Ok {| raw_price := price_text; numeric_price := numeric_price;
          currency := "INR"; unit := unit |}.

(** [search_products]; [url_quote] is [urllib.parse.quote], and the pages
    run over [range(1, max_pages + 1)]. *)
Definition search_products (url_quote : string -> string) (query : string)
    (max_pages : Z) : list string :=
  let encoded_query := url_quote query in
  (fun page : nat =>
     (base_url ++ "/search.mp?ss=" ++ encoded_query ++ "&page="
               ++ pretty page)%string)
  <$> seq 1 (Z.to_nat max_pages).

End Scraper.

(** * Properties *)

(** ** The matcher against a relational reading of the patterns *)

Module ReFacts.
Import Re.

(** [matches r s g s' g']: [r] can match at the front of [s], leaving [s']
    and turning the groups [g] into [g']. *)
Inductive matches : regex -> string -> groups -> string -> groups -> Prop :=
| m_eps s g : matches Eps s g s g
| m_chr p c s g : p c = true -> matches (Chr p) (String c s) g s g
| m_seq r1 r2 s g s1 g1 s2 g2 :
    matches r1 s g s1 g1 -> matches r2 s1 g1 s2 g2 ->
    matches (Seq r1 r2) s g s2 g2
| m_alt_l r1 r2 s g s' g' :
    matches r1 s g s' g' -> matches (Alt r1 r2) s g s' g'
| m_alt_r r1 r2 s g s' g' :
    matches r2 s g s' g' -> matches (Alt r1 r2) s g s' g'
| m_star_stop r s g : matches (Star r) s g s g
| m_star_more r s g s1 g1 s2 g2 :
    matches r s g s1 g1 ->
    (String.length s1 < String.length s)%nat ->
    matches (Star r) s1 g1 s2 g2 ->
    matches (Star r) s g s2 g2
| m_grp i r s g s1 g1 :
    matches r s g s1 g1 ->
    matches (Grp i r) s g s1
            (<[i := Py.take (String.length s - String.length s1) s]> g1)
| m_eos s g : at_end s = true -> matches Eos s g s g.

#[local] Hint Constructors matches : core.

Lemma star_loop_sound r :
  (forall s g k x, rmatch r s g k = Some x ->
     exists s' g', matches r s g s' g' /\ k s' g' = Some x) ->
  forall n s g k x, star_loop (rmatch r) k n s g = Some x ->
     exists s' g', matches (Star r) s g s' g' /\ k s' g' = Some x.
Proof.
  intros IH n. induction n as [|n IHn]; intros s g k x H; simpl in H.
  - eauto.
  - destruct (rmatch r s g _) as [y|] eqn:E.
    + injection H as ->. apply IH in E as (s1 & g1 & Hm & Hk).
      destruct (String.length s1 <? String.length s)%nat eqn:L; [|discriminate].
      apply Nat.ltb_lt in L. apply IHn in Hk as (s2 & g2 & Hm2 & Hk2).
      eauto.
    + eauto.
Qed.

(** Whatever the matcher answers comes from a match of the pattern. *)
Lemma rmatch_sound r : forall s g k x,
  rmatch r s g k = Some x ->
  exists s' g', matches r s g s' g' /\ k s' g' = Some x.
Proof.
  induction r as [|p|r1 IH1 r2 IH2|r1 IH1 r2 IH2|r IH|i r IH|];
    intros s g k x H; simpl in H.
  - eauto.
  - destruct s as [|c s]; [discriminate|].
    destruct (p c) eqn:E; [|discriminate]. eauto.
  - apply IH1 in H as (s1 & g1 & Hm1 & H). apply IH2 in H as (s2 & g2 & Hm2 & H).
    eauto.
  - destruct (rmatch r1 s g k) eqn:E.
    + injection H as ->. apply IH1 in E as (s' & g' & ? & ?). eauto.
    + apply IH2 in H as (s' & g' & ? & ?). eauto.
  - eapply star_loop_sound; eauto.
  - apply IH in H as (s1 & g1 & Hm & H). eauto.
  - destruct (at_end s) eqn:E; [|discriminate]. eauto.
Qed.

Lemma rmatch_complete_gen r s g s' g' :
  matches r s g s' g' ->
  (forall k, is_Some (k s' g') -> is_Some (rmatch r s g k)) /\
  (forall r0 n k, r = Star r0 -> (String.length s <= n)%nat ->
     is_Some (k s' g') -> is_Some (star_loop (rmatch r0) k n s g)).
Proof.
  induction 1 as [s g|p c s g Hp|r1 r2 s g s1 g1 s2 g2 _ [IH1 _] _ [IH2 _]
                 |r1 r2 s g s' g' _ [IH _]|r1 r2 s g s' g' _ [IH _]
                 |r s g|r s g s1 g1 s2 g2 _ [IH1 _] Hlt _ [_ IH2]
                 |i r s g s1 g1 _ [IH _]|s g He];
    (split; [intros k Hk; simpl | intros r0 n k Heq Hn Hk; try discriminate]).
  - exact Hk.
  - rewrite Hp. exact Hk.
  - apply IH1, IH2, Hk.
  - destruct (rmatch r1 s g k) eqn:E; [eauto|].
    apply IH in Hk. rewrite E in Hk. destruct Hk; discriminate.
  - destruct (rmatch r1 s g k) eqn:E; [eauto|]. apply IH, Hk.
  - destruct (String.length s); simpl; [exact Hk|].
    destruct (rmatch r s g _); eauto.
  - destruct n; simpl; [exact Hk|]. destruct (rmatch r0 s g _); eauto.
  - destruct (String.length s) as [|m] eqn:Em; [lia|]. simpl.
    match goal with |- is_Some (match ?e with _ => _ end) =>
      assert (Hs : is_Some e) end.
    { apply IH1. apply Nat.ltb_lt in Hlt as Hb. rewrite Em, Hb.
      apply (IH2 r m k eq_refl); [lia | exact Hk]. }
    destruct Hs as [y ->]. eauto.
  - injection Heq as <-. destruct n as [|n]; [lia|]. simpl.
    match goal with |- is_Some (match ?e with _ => _ end) =>
      assert (Hs : is_Some e) end.
    { apply IH1. apply Nat.ltb_lt in Hlt as Hb. rewrite Hb.
      apply (IH2 r n k eq_refl); [lia | exact Hk]. }
    destruct Hs as [y ->]. eauto.
  - apply IH. exact Hk.
  - rewrite He. exact Hk.
Qed.

(** A match of the pattern makes the matcher answer. *)
Lemma rmatch_complete r s g s' g' k :
  matches r s g s' g' -> is_Some (k s' g') -> is_Some (rmatch r s g k).
Proof. intros H. apply (rmatch_complete_gen _ _ _ _ _ H). Qed.

End ReFacts.

(** ** Facts on strings *)

Module StrFacts.

(** Every character of [s] satisfies [p]. *)
Fixpoint all (p : ascii -> bool) (s : string) : bool :=
  match s with
  | EmptyString => true
  | String c s' => p c && all p s'
  end.

(** The last character of [s]. *)
Fixpoint last (s : string) : option ascii :=
  match s with
  | EmptyString => None
  | String c EmptyString => Some c
  | String _ s' => last s'
  end.

Lemma app_cons c a b : (String c a ++ b)%string = String c (a ++ b).
Proof. reflexivity. Qed.

Lemma app_nil_l b : ("" ++ b)%string = b.
Proof. reflexivity. Qed.

Lemma all_app p a b : all p (a ++ b) = all p a && all p b.
Proof.
  induction a as [|c a IH]; [reflexivity|].
  rewrite app_cons. cbn [all]. rewrite IH. apply andb_assoc.
Qed.

Lemma all_impl (p q : ascii -> bool) s :
  (forall c, p c = true -> q c = true) -> all p s = true -> all q s = true.
Proof.
  intros Hpq. induction s as [|c s IH]; simpl; [reflexivity|].
  intros [Hc Hs]%andb_prop. rewrite (Hpq _ Hc), (IH Hs). reflexivity.
Qed.

Lemma length_app a b :
  String.length (a ++ b) = (String.length a + String.length b)%nat.
Proof.
  induction a as [|c a IH]; [reflexivity|].
  rewrite app_cons. cbn [String.length]. now rewrite IH.
Qed.

Lemma app_empty_r a : (a ++ "")%string = a.
Proof. induction a as [|c a IH]; [reflexivity|]. rewrite app_cons. now f_equal. Qed.

Lemma app_assoc a b c : ((a ++ b) ++ c)%string = (a ++ (b ++ c))%string.
Proof. induction a as [|x a IH]; [reflexivity|]. rewrite !app_cons. now f_equal. Qed.

Lemma take_app a b : Py.take (String.length a) (a ++ b) = a.
Proof.
  induction a as [|c a IH]; [now destruct b|].
  rewrite app_cons. cbn [String.length Py.take]. now f_equal.
Qed.

Lemma take_all a : Py.take (String.length a) a = a.
Proof. pose proof (take_app a "") as H. now rewrite app_empty_r in H. Qed.

Lemma lower_id s :
  all (fun c => negb (Py.isupper c)) s = true -> Py.lower s = s.
Proof.
  induction s as [|c s IH]; simpl; [reflexivity|].
  intros [Hc Hs]%andb_prop. unfold Py.lower_char.
  apply negb_true_iff in Hc. rewrite Hc, (IH Hs). reflexivity.
Qed.

Lemma lstrip_id s :
  all (fun c => negb (Py.isspace c)) s = true -> Py.lstrip s = s.
Proof.
  destruct s as [|c s]; simpl; [reflexivity|].
  intros [Hc _]%andb_prop. apply negb_true_iff in Hc. now rewrite Hc.
Qed.

Lemma rstrip_id s :
  all (fun c => negb (Py.isspace c)) s = true -> Py.rstrip s = s.
Proof.
  induction s as [|c s IH]; simpl; [reflexivity|].
  intros [Hc Hs]%andb_prop. apply negb_true_iff in Hc.
  rewrite (IH Hs), Hc. now destruct s.
Qed.

Lemma strip_id s :
  all (fun c => negb (Py.isspace c)) s = true -> Py.strip s = s.
Proof. intros H. unfold Py.strip. rewrite (lstrip_id _ H). now apply rstrip_id. Qed.

Lemma remove_char_id x s :
  all (fun c => negb (Ascii.eqb c x)) s = true -> Py.remove_char x s = s.
Proof.
  induction s as [|c s IH]; simpl; [reflexivity|].
  intros [Hc Hs]%andb_prop. apply negb_true_iff in Hc.
  now rewrite Hc, (IH Hs).
Qed.

(** The last character survives [rstrip], [lstrip] and [lower] when it is
    not white space. *)
Lemma rstrip_last s c :
  last s = Some c -> Py.isspace c = false -> Py.rstrip s = s.
Proof.
  induction s as [|a s IH]; simpl; [discriminate|].
  destruct s as [|b s].
  - intros [= ->] Hc. simpl. now rewrite Hc.
  - intros Hl Hc. rewrite (IH Hl Hc). reflexivity.
Qed.

Lemma lstrip_last s c :
  last s = Some c -> Py.isspace c = false -> last (Py.lstrip s) = Some c.
Proof.
  induction s as [|a s IH]; [discriminate|].
  intros Hl Hc. cbn [Py.lstrip]. destruct (Py.isspace a) eqn:Ha; [|exact Hl].
  apply IH; [|exact Hc]. simpl in Hl. destruct s as [|b s]; [|exact Hl].
  injection Hl as ->. congruence.
Qed.

Lemma strip_last s c :
  last s = Some c -> Py.isspace c = false -> last (Py.strip s) = Some c.
Proof.
  intros Hl Hc. unfold Py.strip.
  rewrite (rstrip_last _ c); auto using lstrip_last.
Qed.

Lemma lower_last s : last (Py.lower s) = Py.lower_char <$> last s.
Proof.
  induction s as [|a s IH]; [reflexivity|].
  destruct s as [|b s]; [reflexivity|]. exact IH.
Qed.

Lemma last_app_cons a c b : last (a ++ String c b) = last (String c b).
Proof.
  induction a as [|x a IH]; [reflexivity|].
  rewrite app_cons. cbn [last]. rewrite IH. now destruct a.
Qed.

End StrFacts.

(** ** Facts on matching *)

Module MatchFacts.
Import Re ReFacts StrFacts.

#[local] Hint Constructors matches : core.

(** What a match leaves is a suffix of what it was given. *)
Lemma matches_suffix r s g s' g' :
  matches r s g s' g' -> exists w, s = (w ++ s')%string.
Proof.
  induction 1 as [s g|p c s g Hp|r1 r2 s g s1 g1 s2 g2 _ [w1 ->] _ [w2 ->]
                 |r1 r2 s g s' g' _ IH|r1 r2 s g s' g' _ IH
                 |r s g|r s g s1 g1 s2 g2 _ [w1 ->] _ _ [w2 ->]
                 |i r s g s1 g1 _ IH|s g He].
  - now exists "".
  - now exists (String c "").
  - exists (w1 ++ w2)%string. now rewrite app_assoc.
  - exact IH.
  - exact IH.
  - now exists "".
  - exists (w1 ++ w2)%string. now rewrite app_assoc.
  - exact IH.
  - now exists "".
Qed.

Lemma matches_all p r s g s' g' :
  matches r s g s' g' -> all p s = true -> all p s' = true.
Proof.
  intros [w ->]%matches_suffix. rewrite all_app.
  now intros [_ ?]%andb_prop.
Qed.

Lemma matches_length r s g s' g' :
  matches r s g s' g' -> (String.length s' <= String.length s)%nat.
Proof. intros [w ->]%matches_suffix. rewrite length_app. lia. Qed.

(** A repetition of a character class keeps the groups and consumes
    characters of the class only. *)
Lemma matches_star_chr p s g s' g' :
  matches (Star (Chr p)) s g s' g' ->
  g' = g /\ exists w, s = (w ++ s')%string /\ all p w = true.
Proof.
  remember (Star (Chr p)) as r eqn:Er. intros H.
  induction H as [| | | | |r s g|r s g s1 g1 s2 g2 H1 _ _ _ IH| |];
    try discriminate; injection Er as ->.
  - split; [reflexivity|]. now exists "".
  - inversion H1; subst. destruct (IH eq_refl) as (-> & w & -> & Hw).
    split; [reflexivity|]. exists (String c w). split; [reflexivity|].
    simpl. now rewrite Hw, andb_true_r.
Qed.

Lemma matches_plus_chr p s g s' g' :
  matches (Plus (Chr p)) s g s' g' ->
  g' = g /\ exists c w, s = String c (w ++ s') /\ p c = true /\ all p w = true.
Proof.
  unfold Plus. intros H. inversion H as [| |? ? ? ? s1 g1 ? ? H1 H2| | | | | |]; subst.
  inversion H1; subst. apply matches_star_chr in H2 as (-> & w & -> & Hw).
  split; [reflexivity|]. eauto.
Qed.

(** The text a group of one or more class characters captures is not
    empty. *)
Lemma matches_grp_plus_chr i p s g s' g' :
  matches (Grp i (Plus (Chr p))) s g s' g' ->
  exists w, g' !! i = Some w /\ w <> "" /\ all p w = true.
Proof.
  intros H. inversion H as [| | | | | | |? ? ? ? ? g1 H1|]; subst.
  apply matches_plus_chr in H1 as (-> & c & w & -> & Hc & Hw).
  exists (String c w). rewrite lookup_insert_eq. split.
  - f_equal. change (String c (w ++ s'))%string with (String c w ++ s')%string.
    rewrite length_app.
    replace (String.length (String c w) + String.length s' - String.length s')%nat
      with (String.length (String c w)) by lia.
    apply take_app.
  - split; [discriminate|]. simpl. now rewrite Hc, Hw.
Qed.

(** [search] and the positions it tries. *)
Lemma search_skip r c s :
  re_match r (String c s) = None -> search r (String c s) = search r s.
Proof. intros H. simpl. now rewrite H. Qed.

Lemma search_here r s g : re_match r s = Some g -> search r s = Some g.
Proof. intros H. destruct s; simpl; now rewrite H. Qed.

Lemma search_none_all (p : ascii -> bool) r :
  (forall t, all p t = true -> re_match r t = None) ->
  forall s, all p s = true -> search r s = None.
Proof.
  intros Hp s. induction s as [|c s IH]; intros Hs.
  - simpl. now rewrite (Hp "" eq_refl).
  - rewrite search_skip by now apply Hp.
    apply IH. simpl in Hs. now apply andb_prop in Hs as [_ ?].
Qed.

Lemma search_skip_all (p : ascii -> bool) r :
  (forall c t, p c = true -> re_match r (String c t) = None) ->
  forall a s, all p a = true -> search r (a ++ s) = search r s.
Proof.
  intros Hp a s. induction a as [|c a IH]; intros Ha; [reflexivity|].
  simpl in Ha. apply andb_prop in Ha as [Hc Ha].
  rewrite app_cons, search_skip by now apply Hp. now apply IH.
Qed.

Lemma search_sound r s g :
  search r s = Some g ->
  exists a t s', s = (a ++ t)%string /\ matches r t ∅ s' g.
Proof.
  induction s as [|c s IH]; simpl; intros H.
  - destruct (re_match r "") eqn:E; [|discriminate]. injection H as ->.
    apply rmatch_sound in E as (s' & g' & Hm & [= ->]).
    now exists "", "", s'.
  - destruct (re_match r (String c s)) eqn:E.
    + injection H as ->. apply rmatch_sound in E as (s' & g' & Hm & [= ->]).
      now exists "", (String c s), s'.
    + apply IH in H as (a & t & s' & -> & Hm). now exists (String c a), t, s'.
Qed.

Lemma search_complete r a t s' g :
  matches r t ∅ s' g -> is_Some (search r (a ++ t)).
Proof.
  intros Hm. induction a as [|c a IH].
  - destruct (rmatch_complete r t ∅ s' g accept Hm) as [x Hx]; [now eexists|].
    exists x. now apply search_here.
  - rewrite app_cons. simpl. destruct (re_match r _); eauto.
Qed.

(** The matcher run forward: a greedy repetition of a class takes every
    character of the class it finds. *)
Definition stops (p : ascii -> bool) (s : string) : bool :=
  match s with
  | EmptyString => true
  | String c _ => negb (p c)
  end.

Lemma star_chr_stop p k n s g :
  stops p s = true -> star_loop (rmatch (Chr p)) k n s g = k s g.
Proof.
  intros H. destruct n; [reflexivity|]. simpl.
  destruct s as [|c s]; [reflexivity|].
  simpl in H. apply negb_true_iff in H. now rewrite H.
Qed.

Lemma star_chr_greedy p k w rest g x :
  all p w = true -> stops p rest = true -> k rest g = Some x ->
  forall n, (String.length (w ++ rest) <= n)%nat ->
  star_loop (rmatch (Chr p)) k n (w ++ rest) g = Some x.
Proof.
  intros Hw Hr Hk. induction w as [|c w IH]; intros n Hn.
  - rewrite app_nil_l, star_chr_stop; assumption.
  - simpl in Hw. apply andb_prop in Hw as [Hc Hw].
    rewrite app_cons in *. cbn [String.length] in Hn.
    destruct n as [|n]; [lia|]. cbn [star_loop rmatch]. rewrite Hc.
    cbn [String.length]. rewrite (proj2 (Nat.ltb_lt _ _)) by lia.
    rewrite IH by (assumption || lia). reflexivity.
Qed.

Lemma rmatch_seq r1 r2 s g k :
  rmatch (Seq r1 r2) s g k = rmatch r1 s g (fun s1 g1 => rmatch r2 s1 g1 k).
Proof. reflexivity. Qed.

Lemma rmatch_grp i r s g k :
  rmatch (Grp i r) s g k
  = rmatch r s g (fun s1 g1 =>
      k s1 (<[i := Py.take (String.length s - String.length s1) s]> g1)).
Proof. reflexivity. Qed.

Lemma rmatch_star_chr_stop p k s g :
  stops p s = true -> rmatch (Star (Chr p)) s g k = k s g.
Proof. apply star_chr_stop. Qed.

Lemma plus_chr_greedy p k c w rest g x :
  p c = true -> all p w = true -> stops p rest = true ->
  k rest g = Some x ->
  rmatch (Plus (Chr p)) (String c (w ++ rest)) g k = Some x.
Proof.
  intros Hc Hw Hr Hk. unfold Plus. cbn [rmatch]. rewrite Hc.
  now apply star_chr_greedy.
Qed.

End MatchFacts.

(** ** [clean_price_text] and [extract_price_unit] *)

Module PriceFacts.
Import Re ReFacts StrFacts MatchFacts Utils.

(** A digit, or a byte of an encoded character outside Basic Latin. *)
Definition plain (c : ascii) : bool := Py.isdigit c || (128 <=? Py.code c)%N.

Ltac by_cases c :=
  destruct c as [[|] [|] [|] [|] [|] [|] [|] [|]]; vm_compute; congruence.

Lemma plain_not_space c : plain c = true -> negb (Py.isspace c) = true.
Proof. by_cases c. Qed.
Lemma plain_not_upper c : plain c = true -> negb (Py.isupper c) = true.
Proof. by_cases c. Qed.
Lemma plain_not_dash_t_o c : plain c = true -> dash_t_o c = false.
Proof. by_cases c. Qed.
Lemma plain_not_p c : plain c = true -> Ascii.eqb "p" c = false.
Proof. by_cases c. Qed.
Lemma plain_not_slash c : plain c = true -> Ascii.eqb "/" c = false.
Proof. by_cases c. Qed.
Lemma digit_plain c : Py.isdigit c = true -> plain c = true.
Proof. by_cases c. Qed.
Lemma digit_word c : Py.isdigit c = true -> Py.isword c = true.
Proof. by_cases c. Qed.
Lemma digit_not_space c : Py.isdigit c = true -> negb (Py.isspace c) = true.
Proof. by_cases c. Qed.
Lemma digit_not_comma c : Py.isdigit c = true -> negb (Ascii.eqb c ",") = true.
Proof. by_cases c. Qed.
Lemma digit_not_dot c : Py.isdigit c = true -> Ascii.eqb c "." = false.
Proof. by_cases c. Qed.
Lemma digit_not_rupee c : Py.isdigit c = true -> Ascii.eqb "226" c = false.
Proof. by_cases c. Qed.
Lemma word_not_space c : Py.isword c = true -> Py.isspace c = false.
Proof. by_cases c. Qed.
Lemma lower_word c : Py.isword c = true -> Py.isword (Py.lower_char c) = true.
Proof. by_cases c. Qed.

(** The range pattern needs a dash, a [t] or an [o] between its numbers. *)
Lemma range_needs_separator t :
  all (fun c => negb (dash_t_o c)) t = true -> re_match range_pattern t = None.
Proof.
  intros Ht. destruct (re_match range_pattern t) as [x|] eqn:E; [|reflexivity].
  exfalso. apply rmatch_sound in E as (s' & g' & Hm & _).
  unfold range_pattern in Hm.
  repeat match goal with
  | H : matches (Seq _ _) _ _ _ _ |- _ => inversion H; subst; clear H
  end.
  repeat match goal with
  | H : matches ?r ?a _ ?b _, A : all _ ?a = true |- _ =>
      lazymatch r with
      | Chr _ => fail
      | _ => apply (matches_all _ _ _ _ _ _ H) in A; clear H
      end
  end.
  match goal with
  | H : matches (Chr dash_t_o) _ _ _ _ |- _ => inversion H; subst
  end.
  match goal with A : all _ (String _ _) = true |- _ => simpl in A end.
  destruct (dash_t_o c); discriminate.
Qed.

Lemma search_range_plain t :
  all plain t = true -> search range_pattern t = None.
Proof.
  apply (search_none_all plain). intros u Hu. apply range_needs_separator.
  eapply all_impl; [|exact Hu]. intros c Hc.
  now rewrite plain_not_dash_t_o.
Qed.

(** The optional rupee sign, run forward. *)
Lemma rupee_absent c s g k :
  Ascii.eqb "226" c = false ->
  rmatch rupee (String c s) g k = k (String c s) g.
Proof. intros H. unfold rupee, Opt. cbn [rmatch Lit]. now rewrite H. Qed.

Lemma rupee_present s g k x :
  k s g = Some x -> rmatch rupee ("₹" ++ s) g k = Some x.
Proof.
  intros H. unfold rupee, Opt. rewrite !app_cons, app_nil_l.
  cbn [rmatch Lit]. rewrite !Ascii.eqb_refl. now rewrite H.
Qed.

(** [number] on a run of digits that ends the text takes all of it. *)
Lemma number_digits d ds g k x :
  Py.isdigit d = true -> all Py.isdigit ds = true ->
  k "" g = Some x ->
  rmatch number (String d ds) g k = Some x.
Proof.
  intros Hd Hds Hk. unfold number, digits. rewrite rmatch_seq.
  rewrite <- (app_empty_r ds).
  apply plus_chr_greedy; auto.
Qed.

Lemma price_pattern_digits pre d ds :
  pre = "" \/ pre = "₹" ->
  Py.isdigit d = true -> all Py.isdigit ds = true ->
  search price_pattern (pre ++ String d ds) = Some {[ 1%nat := String d ds ]}.
Proof.
  intros Hpre Hd Hds. apply search_here. unfold re_match, price_pattern.
  rewrite rmatch_seq.
  assert (Hk : rmatch (spaces ⋅ Grp 1 number) (String d ds) ∅ accept
               = Some {[ 1%nat := String d ds ]}).
  { unfold spaces. rewrite rmatch_seq, rmatch_star_chr_stop.
    - rewrite rmatch_grp. apply number_digits; auto.
      unfold accept. cbn [String.length]. rewrite Nat.sub_0_r.
      change (S (String.length ds)) with (String.length (String d ds)).
      rewrite take_all. reflexivity.
    - simpl. now apply digit_not_space. }
  destruct Hpre as [-> | ->].
  - rewrite app_nil_l, rupee_absent by now apply digit_not_rupee. exact Hk.
  - now apply rupee_present.
Qed.

(** The three unit patterns on a text of plain characters. *)
Lemma per_pattern_plain t :
  all plain t = true ->
  search (Lit "per" ⋅ Plus (Chr Py.isspace) ⋅ Grp 1 word) t = None.
Proof.
  apply (search_none_all plain). intros [|c u] Hu; [reflexivity|].
  simpl in Hu. apply andb_prop in Hu as [Hc _].
  unfold re_match. cbn [rmatch Lit]. now rewrite plain_not_p.
Qed.

Lemma slash_pattern_plain t :
  all plain t = true -> search (Lit "/" ⋅ Grp 1 word) t = None.
Proof.
  apply (search_none_all plain). intros [|c u] Hu; [reflexivity|].
  simpl in Hu. apply andb_prop in Hu as [Hc _].
  unfold re_match. cbn [rmatch Lit]. now rewrite plain_not_slash.
Qed.

Lemma trailing_pattern_not_word c t :
  Py.isword c = false ->
  re_match (Grp 1 word ⋅ spaces ⋅ Eos) (String c t) = None.
Proof. intros H. unfold re_match, word, Plus. cbn [rmatch]. now rewrite H. Qed.

Lemma trailing_pattern_digits pre d ds :
  pre = "" \/ pre = "₹" ->
  Py.isdigit d = true -> all Py.isdigit ds = true ->
  search (Grp 1 word ⋅ spaces ⋅ Eos) (pre ++ String d ds)
  = Some {[ 1%nat := String d ds ]}.
Proof.
  intros Hpre Hd Hds.
  rewrite (search_skip_all (fun c => negb (Py.isword c))).
  - apply search_here. unfold re_match, word.
    rewrite rmatch_seq, rmatch_grp. rewrite <- (app_empty_r ds).
    apply plus_chr_greedy; auto using digit_word.
    + eapply all_impl; [|exact Hds]. apply digit_word.
    + rewrite app_empty_r. unfold spaces.
      rewrite rmatch_seq, rmatch_star_chr_stop by reflexivity.
      cbn [rmatch at_end accept String.length]. rewrite Nat.sub_0_r.
      change (S (String.length ds)) with (String.length (String d ds)).
      rewrite take_all. reflexivity.
  - intros c t Hc. apply trailing_pattern_not_word. now apply negb_true_iff.
  - destruct Hpre as [-> | ->]; reflexivity.
Qed.

(** No key of the unit table starts with a digit. *)
Lemma unit_mapping_digits d ds :
  Py.isdigit d = true -> Utils.unit_mapping !! String d ds = None.
Proof.
  intros Hd. destruct (Utils.unit_mapping !! String d ds) as [v|] eqn:E;
    [|reflexivity].
  exfalso. unfold Utils.unit_mapping in E.
  apply elem_of_list_to_map_2 in E.
  repeat (apply elem_of_cons in E as [E|E];
          [inversion E; subst; vm_compute in Hd; discriminate|]).
  now apply elem_of_nil in E.
Qed.

Lemma extract_price_unit_digits pre d ds :
  pre = "" \/ pre = "₹" ->
  Py.isdigit d = true -> all Py.isdigit ds = true ->
  extract_price_unit (pre ++ String d ds) = String d ds.
Proof.
  intros Hpre Hd Hds.
  assert (Hplain : all plain (pre ++ String d ds) = true).
  { rewrite all_app. apply andb_true_intro. split.
    - destruct Hpre as [-> | ->]; reflexivity.
    - simpl. rewrite (digit_plain _ Hd). simpl.
      eapply all_impl; [|exact Hds]. apply digit_plain. }
  unfold extract_price_unit.
  replace (Py.nonempty (pre ++ String d ds)) with true
    by (destruct Hpre as [-> | ->]; reflexivity).
  cbn [negb]. rewrite lower_id
    by (eapply all_impl; [|exact Hplain]; apply plain_not_upper).
  unfold unit_patterns. cbn [first_unit].
  rewrite per_pattern_plain, slash_pattern_plain by assumption.
  rewrite trailing_pattern_digits by assumption.
  unfold group, get_or_self. rewrite lookup_singleton_eq.
  cbn [default from_option]. unfold id.
  now rewrite unit_mapping_digits.
Qed.

(** [float] on a run of digits. *)
Lemma digits_value_some ds : forall acc,
  all Py.isdigit ds = true -> is_Some (digits_value acc ds).
Proof.
  induction ds as [|c ds IH]; intros acc H; simpl; [eauto|].
  simpl in H. apply andb_prop in H as [Hc Hds]. rewrite Hc. now apply IH.
Qed.

Lemma split_dot_digits ds :
  all Py.isdigit ds = true -> split_dot ds = (ds, None).
Proof.
  induction ds as [|c ds IH]; simpl; [reflexivity|].
  intros [Hc Hds]%andb_prop. rewrite (digit_not_dot _ Hc), (IH Hds).
  reflexivity.
Qed.

Lemma float_digits d ds n :
  all Py.isdigit (String d ds) = true ->
  digits_value 0 (String d ds) = Some n ->
  float (String d ds) = Ok (inject_Z n).
Proof.
  intros H Hn. unfold float. rewrite (split_dot_digits _ H).
  now rewrite Hn.
Qed.

(** Every value of the unit table is a word. *)
Lemma unit_mapping_values k v : Utils.unit_mapping !! k = Some v -> v <> "".
Proof.
  unfold Utils.unit_mapping. intros E.
  apply elem_of_list_to_map_2 in E.
  repeat (apply elem_of_cons in E as [E|E]; [inversion E; discriminate|]).
  now apply elem_of_nil in E.
Qed.

Lemma get_or_self_nonempty w :
  w <> "" -> get_or_self Utils.unit_mapping w <> "".
Proof.
  intros Hw. unfold get_or_self.
  destruct (Utils.unit_mapping !! w) as [v|] eqn:E; [|exact Hw].
  exact (unit_mapping_values _ _ E).
Qed.

Ltac invert_seq :=
  repeat match goal with
  | H : matches (Seq _ _) _ _ _ _ |- _ => inversion H; subst; clear H
  end.

(** Whichever unit pattern matches, its group holds a word. *)
Lemma unit_pattern_group pattern t m :
  pattern ∈ unit_patterns -> search pattern t = Some m ->
  group 1 m <> "".
Proof.
  intros Hin Hs. apply search_sound in Hs as (a & u & s' & -> & Hm).
  assert (Hw : exists w, m !! 1%nat = Some w /\ w <> "").
  { unfold unit_patterns in Hin.
    repeat (apply elem_of_cons in Hin as [-> | Hin]).
    - invert_seq.
      match goal with H : matches (Grp 1 word) _ _ _ _ |- _ =>
        apply matches_grp_plus_chr in H as (w & ? & ? & _) end. eauto.
    - invert_seq.
      match goal with H : matches (Grp 1 word) _ _ _ _ |- _ =>
        apply matches_grp_plus_chr in H as (w & ? & ? & _) end. eauto.
    - invert_seq.
      match goal with H : matches Eos _ _ _ _ |- _ =>
        inversion H; subst; clear H end.
      match goal with H : matches spaces _ _ _ _ |- _ =>
        apply matches_star_chr in H as (-> & _) end.
      match goal with H : matches (Grp 1 word) _ _ _ _ |- _ =>
        apply matches_grp_plus_chr in H as (w & ? & ? & _) end. eauto.
    - now apply elem_of_nil in Hin. }
  destruct Hw as (w & Hw & Hne). unfold group. now rewrite Hw.
Qed.

Lemma last_some x s : exists c, last (String x s) = Some c.
Proof.
  revert x. induction s as [|y s IH]; intros x; [now exists x|].
  destruct (IH y) as [c Hc]. exists c. exact Hc.
Qed.

Lemma last_split t c : last t = Some c -> exists a, t = (a ++ String c "")%string.
Proof.
  induction t as [|x t IH]; [discriminate|].
  destruct t as [|y t].
  - intros [= ->]. now exists "".
  - intros H. destruct (IH H) as [a ->]. now exists (String x a).
Qed.

(** The trailing-word pattern matches every text that ends in a word
    character. *)
Lemma trailing_pattern_matches t c :
  last t = Some c -> Py.isword c = true ->
  is_Some (search (Grp 1 word ⋅ spaces ⋅ Eos) t).
Proof.
  intros [a ->]%last_split Hc.
  apply (search_complete _ a (String c "") ""
           (<[1%nat := Py.take (1 - 0) (String c "")]> ∅)).
  eapply m_seq.
  - apply (m_grp 1 word (String c "") ∅ "" ∅). unfold word, Plus.
    eapply m_seq; [now apply m_chr | apply m_star_stop].
  - eapply m_seq; [apply m_star_stop | now apply m_eos].
Qed.

Lemma first_unit_nonempty t c :
  last t = Some c -> Py.isword c = true ->
  first_unit unit_patterns t <> "".
Proof.
  intros Hl Hc. unfold unit_patterns. cbn [first_unit].
  repeat match goal with
  | |- context [search ?r t] =>
      let E := fresh "E" in
      destruct (search r t) as [m|] eqn:E;
      [ apply get_or_self_nonempty;
        apply (unit_pattern_group r t); [unfold unit_patterns; set_solver | exact E]
      | ]
  end.
  destruct (trailing_pattern_matches t c Hl Hc) as [m Hm]. congruence.
Qed.

Lemma extract_price_unit_nonempty t c :
  last t = Some c -> Py.isword c = true -> extract_price_unit t <> "".
Proof.
  intros Hl Hc. unfold extract_price_unit.
  destruct t as [|x t]; [discriminate|]. cbn [Py.nonempty negb].
  apply (first_unit_nonempty _ (Py.lower_char c)).
  - now rewrite lower_last, Hl.
  - now apply lower_word.
Qed.

(** The unit of a parsed price is the unit of the stripped text. *)
Lemma clean_price_text_unit x text p :
  clean_price_text (String x text) = Ok p ->
  unit p = extract_price_unit (Py.strip (String x text)).
Proof.
  unfold clean_price_text. cbn [Py.nonempty negb].
  unfold mbind, result_bind.
  destruct (search range_pattern _) as [m|].
  - destruct (float _) as [lo|]; [|discriminate].
    destruct (float _) as [hi|]; [|discriminate].
    now intros [= <-].
  - destruct (search price_pattern _) as [m|].
    + destruct (float _) as [v|]; [|discriminate]. now intros [= <-].
    + now intros [= <-].
Qed.

(** C8: [clean_price_text] on the empty string returns, without raising,
    the dictionary of defaults: no numeric value, no range bounds, not a
    range, the empty unit and raw text, and the currency INR. *)
Theorem clean_price_text_empty :
  clean_price_text "" =
  Ok {| raw_price := ""; numeric_price := None;
        min_price := None; max_price := None;
        currency := "INR"; unit := ""; is_range := false |}.
Proof. reflexivity. Qed.

(** C1, at the failing input: on [100 to 500] the range pattern finds no
    range, since its separator [[-to]] is one character and not the word
    [to]; the price is parsed as the single number 100, with no bounds. *)
Theorem clean_price_text_to_is_not_a_range :
  clean_price_text "100 to 500" =
  Ok {| raw_price := "100 to 500"; numeric_price := Some 100%Q;
        min_price := None; max_price := None;
        currency := "INR"; unit := "500"; is_range := false |}.
Proof. vm_compute. reflexivity. Qed.

(** The dash form of the same range is read as the claim says. *)
Example clean_price_text_dash_range :
  clean_price_text "₹1,200 - ₹1,800 per kg" =
  Ok {| raw_price := "₹1,200 - ₹1,800 per kg"; numeric_price := Some 1500%Q;
        min_price := Some 1200%Q; max_price := Some 1800%Q;
        currency := "INR"; unit := "kilogram"; is_range := true |}.
Proof. vm_compute. reflexivity. Qed.



End PriceFacts.

(** ** [calculate_text_similarity] *)

Module JaccardFacts.
Import StrFacts Utils.

Lemma lower_space c : Py.isspace (Py.lower_char c) = Py.isspace c.
Proof. PriceFacts.by_cases c. Qed.

Lemma all_space_lower s : all Py.isspace (Py.lower s) = all Py.isspace s.
Proof.
  induction s as [|c s IH]; [reflexivity|].
  simpl. now rewrite lower_space, IH.
Qed.

Lemma flush_nonempty cur out : cur <> "" -> Py.flush cur out <> [].
Proof. destruct cur; [congruence|discriminate]. Qed.

(** A text with a character that is not white space splits into at least
    one word. *)
Lemma split_go_nonempty s : forall cur,
  cur <> "" \/ all Py.isspace s = false -> Py.split_go cur s <> [].
Proof.
  induction s as [|c s IH]; intros cur [Hc|Hs]; simpl.
  - now apply flush_nonempty.
  - discriminate.
  - destruct (Py.isspace c).
    + now apply flush_nonempty.
    + apply IH. now left.
  - simpl in Hs. destruct (Py.isspace c).
    + destruct cur; simpl; [apply IH; now right | discriminate].
    + apply IH. now left.
Qed.

Lemma word_set_nonempty s :
  all Py.isspace s = false -> (0 < size (word_set s))%nat.
Proof.
  intros Hs. unfold word_set, Py.split.
  destruct (Py.split_go "" (Py.lower s)) as [|w ws] eqn:E.
  - exfalso. revert E. apply split_go_nonempty. right.
    now rewrite all_space_lower.
  - destruct (decide (size (list_to_set (w :: ws) : gset string) = 0%nat))
      as [Hz|Hz]; [|lia].
    apply size_empty_inv in Hz.
    exfalso. apply (not_elem_of_empty (C := gset string) w).
    rewrite <- Hz. apply elem_of_list_to_set. now left.
Qed.

(** A text of white space only has no word. *)
Lemma split_go_spaces s :
  all Py.isspace s = true -> Py.split_go "" s = [].
Proof.
  induction s as [|c s IH]; [reflexivity|].
  simpl. intros [Hc Hs]%andb_prop. rewrite Hc. simpl. now apply IH.
Qed.

Lemma inter_self (X : gset string) : X ∩ X = X.
Proof. set_solver. Qed.
Lemma union_self (X : gset string) : X ∪ X = X.
Proof. set_solver. Qed.
Lemma inter_swap (X Y : gset string) : X ∩ Y = Y ∩ X.
Proof. set_solver. Qed.
Lemma union_swap (X Y : gset string) : X ∪ Y = Y ∪ X.
Proof. set_solver. Qed.
Lemma inter_size (X Y : gset string) : (size (X ∩ Y) <= size (X ∪ Y))%nat.
Proof. apply subseteq_size. set_solver. Qed.

Lemma ratio_range (i u : nat) :
  (i <= u)%nat -> (0 < u)%nat ->
  (0 <= Qred (inject_Z (Z.of_nat i) / inject_Z (Z.of_nat u)) <= 1)%Q.
Proof.
  intros Hiu Hu. rewrite Qred_correct.
  assert (Hpos : (0 < inject_Z (Z.of_nat u))%Q).
  { change 0%Q with (inject_Z 0). rewrite <- Zlt_Qlt. lia. }
  split.
  - apply Qle_shift_div_l; [exact Hpos|]. rewrite Qmult_0_l.
    change 0%Q with (inject_Z 0). rewrite <- Zle_Qle. lia.
  - apply Qle_shift_div_r; [exact Hpos|]. rewrite Qmult_1_l.
    rewrite <- Zle_Qle. lia.
Qed.

Lemma ratio_self (u : nat) :
  (0 < u)%nat -> Qred (inject_Z (Z.of_nat u) / inject_Z (Z.of_nat u)) = 1%Q.
Proof.
  intros Hu. change 1%Q with (Qred 1). apply Qred_complete.
  apply Qmult_inv_r. change 0%Q with (inject_Z 0).
  rewrite inject_Z_injective. lia.
Qed.

(** A text with a word is as similar to itself as can be. *)
Lemma similarity_self s :
  all Py.isspace s = false -> calculate_text_similarity s s = 1%Q.
Proof.
  intros H. unfold calculate_text_similarity.
  destruct s as [|c s]; [discriminate|]. cbn [Py.nonempty negb orb].
  rewrite inter_self, union_self.
  pose proof (word_set_nonempty _ H) as Hn.
  rewrite (proj2 (Nat.ltb_lt _ _) Hn). now apply ratio_self.
Qed.




End JaccardFacts.

(** ** Location to state *)

Module LocationFacts.
Import StrFacts Utils Frame.

(** The matching the specification asks for, in its words: the keys of the
    table are tried longest first, and the first one found in the lowercased
    text decides. *)
Fixpoint insert_by_length (kv : string * string) (l : list (string * string))
    : list (string * string) :=
  match l with
  | [] => [kv]
  | kv' :: l' =>
      if (String.length kv'.1 <? String.length kv.1)%nat
      then kv :: l
      else kv' :: insert_by_length kv l'
  end.

Definition longest_key_first (table : list (string * string))
    : list (string * string) :=
  foldr insert_by_length [] table.

Definition spec_state (location_text : string) : string :=
  first_state (longest_key_first indian_states)
              (Py.lower (Py.strip location_text)).

(** [first_state] returns the state of the first key, in the order of the
    list, that the text contains. *)
Lemma first_state_found before key st after l :
  Forall (fun ks => Py.contains ks.1 l = false) before ->
  Py.contains key l = true ->
  first_state (before ++ (key, st) :: after) l = st.
Proof.
  intros Hb Hk. induction Hb as [|[k s] before Hks _ IH]; simpl.
  - now rewrite Hk.
  - simpl in Hks. now rewrite Hks.
Qed.

Lemma first_state_none items l :
  Forall (fun ks => Py.contains ks.1 l = false) items ->
  first_state items l = "".
Proof.
  induction 1 as [|[k s] items Hks _ IH]; simpl; [reflexivity|].
  simpl in Hks. now rewrite Hks.
Qed.

(** [first_key] returns the title-cased form of a key the text contains,
    and a missing value only when the text contains none. *)
Lemma first_key_found keys l v :
  Cleaner.first_key keys l = Str v ->
  exists k, k ∈ keys /\ v = Cleaner.title k /\ Py.contains k l = true.
Proof.
  induction keys as [|k keys IH]; simpl; [discriminate|].
  destruct (Py.contains k l) eqn:E.
  - intros [= <-]. exists k. split; [now left | now split].
  - intros H. destruct (IH H) as (k' & Hin & Hv & Hc).
    exists k'. split; [now right | now split].
Qed.

Lemma first_key_missing keys l :
  Cleaner.first_key keys l = Missing <->
  forall k, k ∈ keys -> Py.contains k l = false.
Proof.
  induction keys as [|k keys IH]; simpl.
  - split; [intros _ k' H; now apply elem_of_nil in H | reflexivity].
  - destruct (Py.contains k l) eqn:E.
    + split; [discriminate|]. intros H. specialize (H k (list_elem_of_here _ _)).
      congruence.
    + rewrite IH. split.
      * intros H k' [-> | Hin]%elem_of_cons; auto.
      * intros H k' Hin. apply H. now right.
Qed.

Lemma first_key_cases keys l :
  Cleaner.first_key keys l = Missing \/ exists v, Cleaner.first_key keys l = Str v.
Proof.
  induction keys as [|k keys IH]; simpl; [now left|].
  destruct (Py.contains k l); [right; eauto | exact IH].
Qed.




End LocationFacts.

(** ** Facts on frames *)

Module FrameFacts.
Import Frame.

Lemma get_insert_eq col c (r : row) : get col (<[col := c]> r) = c.
Proof. unfold get. now rewrite lookup_insert_eq. Qed.

Lemma get_insert_ne col col' c (r : row) :
  col <> col' -> get col (<[col' := c]> r) = get col r.
Proof. intros H. unfold get. now rewrite lookup_insert_ne. Qed.

Lemma has_column_true col df : has_column col df = true <-> col ∈ columns df.
Proof. unfold has_column. apply bool_decide_eq_true. Qed.

Lemma has_column_false col df : has_column col df = false <-> col ∉ columns df.
Proof. unfold has_column. apply bool_decide_eq_false. Qed.

Lemma columns_set_column col f df c :
  c ∈ columns (set_column col f df) <-> c ∈ columns df \/ c = col.
Proof.
  unfold set_column. simpl. destruct (has_column col df) eqn:E.
  - apply has_column_true in E. split; [now left | now intros [?| ->]].
  - rewrite elem_of_app, list_elem_of_singleton. reflexivity.
Qed.

Lemma has_column_set_column col f df c :
  has_column c (set_column col f df)
  = has_column c df || bool_decide (c = col).
Proof.
  apply eq_true_iff_eq. rewrite has_column_true, columns_set_column.
  rewrite orb_true_iff, has_column_true, bool_decide_eq_true. reflexivity.
Qed.

Lemma rows_set_column col f df :
  rows (set_column col f df) = (fun r => <[col := f r]> r) <$> rows df.
Proof. reflexivity. Qed.

Lemma length_rows_set_column col f df :
  length (rows (set_column col f df)) = length (rows df).
Proof. rewrite rows_set_column. apply length_fmap. Qed.

End FrameFacts.

(** ** The unit tables of extraction and of cleaning *)

Module UnitFacts.
Import Frame FrameFacts Utils.

(** The unit stage on one row: the token in lower case, and its image under
    the cleaner's table. *)
Lemma map_unit_str u :
  Cleaner.map_unit (str_lower (Str u))
  = Str (get_or_self Cleaner.unit_mapping (Py.lower u)).
Proof.
  unfold Cleaner.map_unit, get_or_self. simpl.
  now destruct (Cleaner.unit_mapping !! Py.lower u).
Qed.


Definition units_frame : DataFrame :=
  {| columns := ["numeric_price"; "price_unit"];
     rows := [ {[ "numeric_price" := Num 5; "price_unit" := Str "gm" ]};
               {[ "numeric_price" := Num 7; "price_unit" := Str "Box" ]} ] |}.



End UnitFacts.

(** ** [get_product_urls] *)

Module ScraperFacts.
Import Scraper.

(** The listing links in the words of the specification: the selectors are
    hypotheses tried in order, and only the first one that matches anything
    gives the links of the page. *)
Fixpoint first_matching (page : soup) (selectors : list string)
    : list element :=
  match selectors with
  | [] => []
  | selector :: rest =>
      match page selector with
      | [] => first_matching page rest
      | links => links
      end
  end.

Definition spec_listing_links (urljoin : string -> string -> string)
    (page : soup) : gset string :=
  list_to_set (foldl (add_link urljoin) []
                     (first_matching page link_selectors)).

Section Urls.

Variable urljoin : string -> string -> string.

(** The URL one link contributes, if any. *)
Definition link_url (link : element) : option string :=
  match link !! "href" with
  | Some href =>
      if Py.nonempty href
      then Some (if negb (Py.startswith "http" href)
                 then urljoin base_url href else href)
      else None
  | None => None
  end.

Lemma add_link_app urls link :
  add_link urljoin urls link = urls ++ option_list (link_url link).
Proof.
  unfold add_link, link_url. destruct (link !! "href") as [href|].
  - destruct (Py.nonempty href); [reflexivity | now rewrite app_nil_r].
  - now rewrite app_nil_r.
Qed.

Lemma foldl_add_link links : forall urls,
  foldl (add_link urljoin) urls links = urls ++ omap link_url links.
Proof.
  induction links as [|link links IH]; intros urls; simpl.
  - now rewrite app_nil_r.
  - rewrite IH, add_link_app, <- app_assoc. f_equal.
    now destruct (link_url link).
Qed.

Lemma foldl_selectors (page : soup) selectors : forall urls,
  foldl (fun urls selector => foldl (add_link urljoin) urls (page selector))
        urls selectors
  = urls ++ (selectors ≫= fun selector => omap link_url (page selector)).
Proof.
  induction selectors as [|sel selectors IH]; intros urls; simpl.
  - now rewrite app_nil_r.
  - now rewrite IH, foldl_add_link, <- app_assoc.
Qed.

End Urls.

(** C9, as the code has it: [get_product_urls] returns the set of the URLs
    of the links matched by any of the four selectors, all of them and not
    those of the first matching selector only; a link counts when it has a
    non-empty [href], which is kept when it starts with [http] and joined to
    the base URL otherwise. *)
Theorem get_product_urls_collects_every_selector :
  forall urljoin (page : soup) (u : string),
    u ∈ get_product_urls urljoin page <->
    exists selector link href,
      selector ∈ link_selectors /\ link ∈ page selector /\
      link !! "href" = Some href /\ href <> "" /\
      u = if Py.startswith "http" href then href else urljoin base_url href.
Proof.
  intros urljoin page u. unfold get_product_urls.
  rewrite elem_of_list_to_set, foldl_selectors, app_nil_l, list_elem_of_bind.
  split.
  - intros (selector & Hu & Hsel). apply list_elem_of_omap in Hu as (link & Hl & Hu).
    unfold link_url in Hu. destruct (link !! "href") as [href|] eqn:E; [|discriminate].
    destruct (Py.nonempty href) eqn:Hn; [|discriminate].
    exists selector, link, href.
    split; [exact Hsel|]. split; [exact Hl|]. split; [exact E|].
    split; [intros ->; discriminate|].
    destruct (Py.startswith "http" href); cbn [negb] in Hu; congruence.
  - intros (selector & link & href & Hsel & Hl & E & Hne & ->).
    exists selector. split; [|exact Hsel]. apply list_elem_of_omap.
    exists link. split; [exact Hl|]. unfold link_url. rewrite E.
    replace (Py.nonempty href) with true by (now destruct href).
    now destruct (Py.startswith "http" href).
Qed.

Definition two_layouts : soup := fun selector =>
  if String.eqb selector ".prd a" then [ {[ "href" := "https://x.in/1" ]} ]
  else if String.eqb selector ".lst a" then [ {[ "href" := "https://x.in/2" ]} ]
  else [].

(** C9 as stated fails: on a page where the first selector matches one link
    and the second another, the link of the second selector is among the
    URLs returned, which the first-match strategy leaves out. *)
Lemma second_selector_contributes :
  "https://x.in/2" ∈ get_product_urls (fun _ href => href) two_layouts /\
  "https://x.in/2" ∉ spec_listing_links (fun _ href => href) two_layouts /\
  get_product_urls (fun _ href => href) two_layouts
    <> spec_listing_links (fun _ href => href) two_layouts.
Proof.
  assert (Hin : "https://x.in/2"
                  ∈ get_product_urls (fun _ href => href) two_layouts).
  { apply (bool_decide_unpack _). vm_compute. exact I. }
  assert (Hout : "https://x.in/2"
                   ∉ spec_listing_links (fun _ href => href) two_layouts).
  { apply (bool_decide_unpack _). vm_compute. exact I. }
  split; [exact Hin|]. split; [exact Hout|]. intros Heq. apply Hout.
  rewrite <- Heq. exact Hin.
Qed.

End ScraperFacts.

(** ** Exact deduplication and the cleaning pipeline *)

Module CleanerFacts.
Import Frame FrameFacts.

(** The key [remove_duplicates] gives a row. *)
Definition row_key (r : row) : cell :=
  Cleaner.dedup_key (get "title" r) (get "supplier_name" r).

(** Exact deduplication in the words of the specification: a row is kept
    when no row before it has its key.  [before] holds the rows already
    passed. *)
Fixpoint firsts (before rs : list row) : list row :=
  match rs with
  | [] => []
  | r :: rest =>
      (if bool_decide (Forall (fun r' => row_key r' <> row_key r) before)
       then [r] else [])
      ++ firsts (before ++ [r]) rest
  end.

Definition first_per_key (rs : list row) : list row := firsts [] rs.

(** The text of a cell, an absent one read as the empty string. *)
Definition text_or_empty (c : cell) : string :=
  match c with Str s => s | _ => "" end.

Definition textual (c : cell) : Prop :=
  match c with Str _ | Missing => True | _ => False end.

Lemma dedup_key_text title supplier :
  textual title -> textual supplier ->
  Cleaner.dedup_key title supplier
  = Str (Py.lower (text_or_empty title) ++ "_"
         ++ Py.lower (text_or_empty supplier)).
Proof.
  destruct title, supplier; simpl; intros [] []; unfold Cleaner.dedup_key;
    simpl; now rewrite ?StrFacts.app_assoc.
Qed.

(** [keep_first] on the key column, read on the rows without that column. *)
Fixpoint keep_first_by (seen : list cell) (rs : list row) : list row :=
  match rs with
  | [] => []
  | r :: rest =>
      if bool_decide (row_key r ∈ seen) then keep_first_by seen rest
      else r :: keep_first_by (row_key r :: seen) rest
  end.

Lemma keep_first_keyed seen rs :
  keep_first "dedup_key" seen ((fun r => <["dedup_key" := row_key r]> r) <$> rs)
  = (fun r => <["dedup_key" := row_key r]> r) <$> keep_first_by seen rs.
Proof.
  revert seen. induction rs as [|r rs IH]; intros seen; [reflexivity|].
  cbn [fmap list_fmap keep_first keep_first_by]. rewrite get_insert_eq.
  destruct (bool_decide (row_key r ∈ seen)); [apply IH|].
  cbn [fmap list_fmap]. f_equal. apply IH.
Qed.

Lemma row_key_delete r : row_key (delete "dedup_key" r) = row_key r.
Proof. unfold row_key, get. now rewrite !lookup_delete_ne by discriminate. Qed.

Lemma keep_first_by_delete seen rs :
  keep_first_by seen (delete "dedup_key" <$> rs)
  = delete "dedup_key" <$> keep_first_by seen rs.
Proof.
  revert seen. induction rs as [|r rs IH]; intros seen; [reflexivity|].
  cbn [fmap list_fmap keep_first_by]. rewrite row_key_delete.
  destruct (bool_decide (row_key r ∈ seen)); [apply IH|].
  cbn [fmap list_fmap]. f_equal. apply IH.
Qed.

Lemma keep_first_by_idem rs : forall seen,
  keep_first_by seen (keep_first_by seen rs) = keep_first_by seen rs.
Proof.
  induction rs as [|r rs IH]; intros seen; [reflexivity|].
  cbn [keep_first_by]. destruct (bool_decide (row_key r ∈ seen)) eqn:E.
  - apply IH.
  - cbn [keep_first_by]. rewrite E. f_equal. apply IH.
Qed.

(** The rows the code keeps are the first rows of their keys. *)
Lemma keep_first_by_firsts rs : forall seen before,
  (forall k, k ∈ seen <-> exists r', r' ∈ before /\ row_key r' = k) ->
  keep_first_by seen rs = firsts before rs.
Proof.
  induction rs as [|r rs IH]; intros seen before Hseen; [reflexivity|].
  cbn [keep_first_by firsts].
  destruct (bool_decide (row_key r ∈ seen)) eqn:E.
  - apply bool_decide_eq_true in E. rewrite bool_decide_eq_false_2.
    + apply IH. intros k. rewrite Hseen. split.
      * intros (r' & Hin & Hk). exists r'. split; [|exact Hk].
        apply elem_of_app. now left.
      * intros (r' & [Hin | ->%list_elem_of_singleton]%elem_of_app & Hk).
        -- now exists r'.
        -- subst k. now apply Hseen.
    + rewrite Forall_forall. intros H. apply Hseen in E as (r' & Hin & Hk).
      exact (H r' Hin Hk).
  - apply bool_decide_eq_false in E. rewrite bool_decide_eq_true_2.
    + cbn [app]. f_equal. apply IH. intros k. rewrite elem_of_cons, Hseen.
      split.
      * intros [-> | (r' & Hin & Hk)].
        -- exists r. split; [|reflexivity]. apply elem_of_app. right.
           now apply list_elem_of_singleton.
        -- exists r'. split; [|exact Hk]. apply elem_of_app. now left.
      * intros (r' & [Hin | ->%list_elem_of_singleton]%elem_of_app & Hk).
        -- right. now exists r'.
        -- now left.
    + rewrite Forall_forall. intros r' Hin Hk. apply E, Hseen. now exists r'.
Qed.

Lemma delete_insert_key (r : row) c :
  delete "dedup_key" (<["dedup_key" := c]> r) = delete "dedup_key" r.
Proof. apply delete_insert_eq. Qed.

Lemma filter_ne_app_singleton (l : list string) (x : string) :
  filter (fun c => c <> x) (l ++ [x]) = filter (fun c => c <> x) l.
Proof.
  rewrite filter_app, filter_cons_False by (intros H; now apply H).
  rewrite filter_nil. apply app_nil_r.
Qed.

Lemma filter_ne_id (l : list string) (x : string) :
  x ∉ l -> filter (fun c => c <> x) l = l.
Proof.
  induction l as [|y l IH]; [reflexivity|].
  intros [Hy Hl]%not_elem_of_cons.
  rewrite filter_cons_True by congruence. now rewrite IH.
Qed.

Lemma filter_ne_idem (l : list string) (x : string) :
  filter (fun c => c <> x) (filter (fun c => c <> x) l)
  = filter (fun c => c <> x) l.
Proof.
  apply filter_ne_id. rewrite list_elem_of_filter. now intros [H _].
Qed.

(** What [remove_duplicates] returns on a frame with both columns. *)
Lemma remove_duplicates_ok df :
  has_column "title" df = true ->
  has_column "supplier_name" df = true ->
  Cleaner.remove_duplicates df =
  Ok {| columns := filter (fun c => c <> "dedup_key") (columns df);
        rows := delete "dedup_key" <$> keep_first_by [] (rows df) |}.
Proof.
  intros Ht Hs. unfold Cleaner.remove_duplicates. rewrite Ht, Hs. cbn [negb].
  unfold drop_column, drop_duplicates. cbn [columns rows set_column].
  f_equal. f_equal.
  - destruct (has_column "dedup_key" df); [reflexivity|].
    apply filter_ne_app_singleton.
  - fold (row_key). change (fun r : row =>
        <["dedup_key" := Cleaner.dedup_key (get "title" r) (get "supplier_name" r)]> r)
      with (fun r : row => <["dedup_key" := row_key r]> r).
    rewrite keep_first_keyed, <- list_fmap_compose.
    apply list_fmap_ext. intros i r _. apply delete_insert_key.
Qed.


Definition three_products : DataFrame :=
  {| columns := ["title"; "supplier_name"; "numeric_price"];
     rows := [ {[ "title" := Str "Steel Pipe"; "supplier_name" := Str "ACME";
                  "numeric_price" := Num 10 ]};
               {[ "title" := Str "Copper Wire"; "supplier_name" := Missing;
                  "numeric_price" := Num 20 ]};
               {[ "title" := Str "steel pipe"; "supplier_name" := Str "Acme";
                  "numeric_price" := Num 30 ]} ] |}.


(** The third row of [three_products] has the key of the first and is the
    one dropped. *)
Example remove_duplicates_three_products :
  (fun out => get "numeric_price" <$> rows out)
    <$> match Cleaner.remove_duplicates three_products with
        | Ok out => Some out
        | Raise _ => None
        end
  = Some [Num 10; Num 20].
Proof. vm_compute. reflexivity. Qed.

(** *** Absent columns *)

Section Absent.

Variable str_of_float : Q -> string.
Variable to_numeric_text : string -> option Q.
Variable states_order : list string.

(** The guarded stages leave a frame without their column as it is. *)
Lemma standardize_prices_absent df :
  has_column "numeric_price" df = false ->
  Cleaner.standardize_prices to_numeric_text df = df.
Proof. intros H. unfold Cleaner.standardize_prices. now rewrite H. Qed.

Lemma standardize_locations_absent df :
  has_column "location" df = false ->
  Cleaner.standardize_locations str_of_float states_order df = df.
Proof. intros H. unfold Cleaner.standardize_locations. now rewrite H. Qed.

Lemma clean_text_columns_absent df :
  Forall (fun col => has_column col df = false) Cleaner.text_columns ->
  Cleaner.clean_text_columns str_of_float df = df.
Proof.
  unfold Cleaner.clean_text_columns.
  induction Cleaner.text_columns as [|col cols IH]; [reflexivity|].
  intros [E H]%Forall_cons. cbn [foldl]. rewrite E. now apply IH.
Qed.

(** The stages before [remove_duplicates] neither add nor remove the
    columns [title] and [supplier_name]. *)
Lemma columns_set_existing col f df :
  has_column col df = true -> columns (set_column col f df) = columns df.
Proof. intros H. unfold set_column. cbn [columns]. now rewrite H. Qed.

Lemma columns_clean_text_columns df :
  columns (Cleaner.clean_text_columns str_of_float df) = columns df.
Proof.
  unfold Cleaner.clean_text_columns, Cleaner.text_columns.
  assert (Hfold : forall cols df0,
    columns (foldl (fun df col =>
               if has_column col df
               then set_column col
                      (fun r => Cleaner.clean_text_cell str_of_float (get col r)) df
               else df) df0 cols) = columns df0).
  { induction cols as [|col cols IH]; intros df0; [reflexivity|].
    cbn [foldl]. rewrite IH. destruct (has_column col df0) eqn:E; [|reflexivity].
    now apply columns_set_existing. }
  apply Hfold.
Qed.

Lemma has_column_clean_text_columns col df :
  has_column col (Cleaner.clean_text_columns str_of_float df)
  = has_column col df.
Proof. unfold has_column. now rewrite columns_clean_text_columns. Qed.

Lemma has_column_standardize_prices col df :
  col ∈ ["title"; "supplier_name"; "location"] ->
  has_column col (Cleaner.standardize_prices to_numeric_text df)
  = has_column col df.
Proof.
  intros Hcol. unfold Cleaner.standardize_prices.
  destruct (has_column "numeric_price" df); cbn [negb]; [|reflexivity].
  assert (Hne : forall c, c ∈ ["numeric_price"; "price_outlier"; "price_unit";
                               "standardized_unit"] ->
                          bool_decide (col = c) = false).
  { intros c Hc. apply bool_decide_eq_false. intros ->.
    repeat (apply elem_of_cons in Hcol as [Hcol|Hcol];
            [subst; repeat (apply elem_of_cons in Hc as [Hc|Hc];
                            [discriminate|]); now apply elem_of_nil in Hc|]).
    now apply elem_of_nil in Hcol. }
  destruct (has_column "price_unit" _);
    rewrite !has_column_set_column, !Hne, ?orb_false_r;
    try reflexivity; set_solver.
Qed.

Lemma has_column_standardize_locations col df :
  col ∈ ["title"; "supplier_name"] ->
  has_column col (Cleaner.standardize_locations str_of_float states_order df)
  = has_column col df.
Proof.
  intros Hcol. unfold Cleaner.standardize_locations.
  destruct (has_column "location" df); cbn [negb]; [|reflexivity].
  rewrite has_column_set_column.
  replace (bool_decide (col = "extracted_state")) with false;
    [apply orb_false_r|].
  symmetry. apply bool_decide_eq_false. intros ->.
  repeat (apply elem_of_cons in Hcol as [Hcol|Hcol]; [discriminate|]).
  now apply elem_of_nil in Hcol.
Qed.

(** The last stage is not guarded: a frame without the [supplier_name]
    column makes the whole pipeline raise. *)
Lemma clean_dataset_without_supplier df :
  has_column "supplier_name" df = false ->
  Cleaner.clean_dataset str_of_float to_numeric_text states_order df
  = Raise (KeyError (if has_column "title" df then "supplier_name"
                     else "title")).
Proof.
  intros Hs. unfold Cleaner.clean_dataset, Cleaner.remove_duplicates.
  rewrite !has_column_standardize_locations by set_solver.
  rewrite !has_column_standardize_prices by set_solver.
  rewrite !has_column_clean_text_columns, Hs.
  now destruct (has_column "title" df).
Qed.

End Absent.

Definition no_supplier_column : DataFrame :=
  {| columns := ["title"; "numeric_price"];
     rows := [ {[ "title" := Str "Steel Pipe"; "numeric_price" := Num 10 ]} ] |}.

(** C2, at the failing input: a frame with a title and a price but no
    [supplier_name] column passes the three guarded stages and makes
    [remove_duplicates], which reads the column without a guard, raise a
    [KeyError]; so does the pipeline. *)
Theorem clean_dataset_raises_without_supplier_column :
  forall str_of_float to_numeric_text states_order,
    Cleaner.remove_duplicates no_supplier_column
      = Raise (KeyError "supplier_name") /\
    Cleaner.clean_dataset str_of_float to_numeric_text states_order
      no_supplier_column = Raise (KeyError "supplier_name").
Proof.
  intros sof tnt order. split; [reflexivity|].
  now rewrite clean_dataset_without_supplier.
Qed.

End CleanerFacts.

(** ** The similarity deduplicator *)

Module SimilarityFacts.
Import Frame FrameFacts Similarity.

Lemma foldM_app {S A : Type} (f : S -> A -> result S) l1 l2 s :
  foldM f s (l1 ++ l2) = (s' ← foldM f s l1; foldM f s' l2).
Proof.
  revert s. induction l1 as [|a l1 IH]; intros s; [reflexivity|].
  cbn [app foldM]. destruct (f s a) as [s1|e]; [apply IH | reflexivity].
Qed.

(** An invariant kept by every step is kept by the loop. *)
Lemma foldM_invariant {S A : Type} (P : S -> Prop) (f : S -> A -> result S) l :
  (forall s a s', a ∈ l -> P s -> f s a = Ok s' -> P s') ->
  forall s s', P s -> foldM f s l = Ok s' -> P s'.
Proof.
  induction l as [|a l IH]; intros Hstep s s' Hs H; simpl in H.
  - now injection H as <-.
  - destruct (f s a) as [s1|e] eqn:E; [|discriminate].
    apply (IH (fun s0 b s0' Hb => Hstep s0 b s0' (list_elem_of_further _ _ _ Hb)) s1);
      [|exact H].
    apply (Hstep s a); [now left | exact Hs | exact E].
Qed.

(** A loop whose steps all return returns. *)
Lemma foldM_total {S A : Type} (f : S -> A -> result S) l :
  (forall s a, a ∈ l -> exists s', f s a = Ok s') ->
  forall s, exists s', foldM f s l = Ok s'.
Proof.
  induction l as [|a l IH]; intros Hstep s; simpl; [eauto|].
  destruct (Hstep s a) as [s1 ->]; [now left|].
  apply IH. intros s0 b Hb. apply Hstep. now right.
Qed.

Section Detect.

Variable str_of_float : Q -> string.
Variable df : DataFrame.
Variable similarity_threshold : Q.

Abbreviation compare := (compare str_of_float df similarity_threshold).
Abbreviation compare_all := (compare_all str_of_float df similarity_threshold).
Abbreviation per_supplier := (per_supplier str_of_float df similarity_threshold).
Abbreviation combined_similarity := (combined_similarity str_of_float df).
Abbreviation title_similarity := (title_similarity str_of_float df).
Abbreviation price_similarity := (price_similarity df).

Definition supplier (r : row) : cell := get "supplier_name" r.

(** The labels a loop over [sp] may flag. *)
Definition labels (sp : list (nat * row)) : gset nat := list_to_set sp.*1.

(** One comparison flags at most the later row, and only when the score
    reaches the threshold. *)
Lemma compare_step i row1 flags j row2 flags' :
  compare i row1 flags (j, row2) = Ok flags' ->
  flags' = flags \/
  (flags' = {[ j ]} ∪ flags /\ (i < j)%nat /\ j ∉ flags /\
   exists c, combined_similarity row1 row2 = Ok c /\
             Qle_bool similarity_threshold c = true).
Proof.
  unfold Similarity.compare.
  destruct (j <=? i)%nat eqn:Hji; cbn [orb]; [intros [= <-]; now left|].
  destruct (bool_decide (j ∈ flags)) eqn:Hj; [intros [= <-]; now left|].
  apply Nat.leb_gt in Hji. apply bool_decide_eq_false in Hj.
  unfold mbind, result_bind.
  destruct (Similarity.combined_similarity _ _ _ _) as [c|e] eqn:Ec;
    [|discriminate].
  destruct (Qle_bool similarity_threshold c) eqn:Hc; [|intros [= <-]; now left].
  destruct (slice50 _); [|discriminate].
  destruct (slice50 _); [|discriminate].
  intros [= <-]. right. repeat split; try assumption. now exists c.
Qed.

Lemma compare_bounds i row1 flags jrow flags' :
  compare i row1 flags jrow = Ok flags' ->
  flags ⊆ flags' /\ flags' ⊆ flags ∪ {[ jrow.1 ]}.
Proof.
  destruct jrow as [j row2]. intros [-> | (-> & _)]%compare_step; set_solver.
Qed.

Lemma foldM_compare_bounds i row1 sp : forall flags flags',
  foldM (compare i row1) flags sp = Ok flags' ->
  flags ⊆ flags' /\ flags' ⊆ flags ∪ labels sp.
Proof.
  induction sp as [|jrow sp IH]; intros flags flags' H; simpl in H.
  - injection H as <-. set_solver.
  - destruct (Similarity.compare _ _ _ _ _ _ _) as [f1|] eqn:E; [|discriminate].
    apply compare_bounds in E. apply IH in H.
    unfold labels in *. cbn [fmap list_fmap list_to_set]. set_solver.
Qed.

Lemma compare_all_bounds sp flags irow flags' :
  compare_all sp flags irow = Ok flags' ->
  flags ⊆ flags' /\ flags' ⊆ flags ∪ labels sp.
Proof.
  destruct irow as [i row1]. unfold Similarity.compare_all.
  destruct (bool_decide (i ∈ flags)); [intros [= <-]; set_solver|].
  apply foldM_compare_bounds.
Qed.

Lemma foldM_compare_all_bounds sp l : forall flags flags',
  foldM (compare_all sp) flags l = Ok flags' ->
  flags ⊆ flags' /\ flags' ⊆ flags ∪ labels sp.
Proof.
  induction l as [|irow l IH]; intros flags flags' H; simpl in H.
  - injection H as <-. set_solver.
  - destruct (Similarity.compare_all _ _ _ _ _ _) as [f1|] eqn:E; [|discriminate].
    apply compare_all_bounds in E. apply IH in H. set_solver.
Qed.

(** A supplier's turn flags rows of that supplier only, and none when the
    supplier is absent or has a single row. *)
Lemma per_supplier_bounds flags s flags' :
  per_supplier flags s = Ok flags' ->
  flags ⊆ flags' /\
  (flags' = flags \/
   (isna s = false /\ (2 <= length (supplier_rows df s))%nat /\
    flags' ⊆ flags ∪ labels (supplier_rows df s))).
Proof.
  unfold Similarity.per_supplier. destruct (isna s) eqn:Hs.
  - intros [= <-]. split; [reflexivity | now left].
  - destruct (length (supplier_rows df s) <? 2)%nat eqn:Hl.
    + intros [= <-]. split; [reflexivity | now left].
    + apply Nat.ltb_ge in Hl. intros H%foldM_compare_all_bounds.
      split; [apply H|]. right. repeat split; [exact Hl | apply H].
Qed.

(** The rows of a supplier, by label. *)
Lemma elem_of_supplier_rows s k r :
  (k, r) ∈ supplier_rows df s <-> rows df !! k = Some r /\ supplier r = s.
Proof.
  unfold supplier_rows, iterrows. rewrite list_elem_of_filter, elem_of_lookup_imap.
  cbn [snd]. split.
  - intros (Hs & i & y & [= -> ->] & Hl). now split.
  - intros (Hl & Hs). split; [exact Hs|]. now exists k, r.
Qed.

Lemma iterrows_labels (rs : list row) : (iterrows rs).*1 = seq 0 (length rs).
Proof.
  apply list_eq. intros i. unfold iterrows.
  rewrite list_lookup_fmap, list_lookup_imap.
  destruct (rs !! i) as [r|] eqn:E; cbn.
  - apply lookup_lt_Some in E. now rewrite lookup_seq_lt.
  - apply lookup_ge_None in E. now rewrite lookup_seq_ge.
Qed.

Lemma NoDup_supplier_rows s : NoDup (supplier_rows df s).*1.
Proof.
  unfold supplier_rows.
  assert (H : NoDup (iterrows (rows df)).*1)
    by (rewrite iterrows_labels; apply NoDup_seq).
  revert H. generalize (iterrows (rows df)). intros l.
  induction l as [|[k r] l IH]; [intros _; constructor|].
  cbn [fmap list_fmap fst]. intros [Hk Hl]%NoDup_cons.
  rewrite filter_cons. destruct (decide _).
  - cbn [fmap list_fmap fst]. apply NoDup_cons. split; [|now apply IH].
    intros Hin. apply Hk. apply list_elem_of_fmap in Hin as ([k' r'] & -> & Hin).
    apply list_elem_of_filter in Hin as [_ Hin].
    apply list_elem_of_fmap. now exists (k', r').
  - now apply IH.
Qed.

(** A row can be flagged only when its supplier is present and has two rows
    or more. *)
Definition eligible (p : nat) : Prop :=
  exists r, rows df !! p = Some r /\ isna (supplier r) = false /\
            (2 <= length (supplier_rows df (supplier r)))%nat.

Lemma per_supplier_eligible flags s flags' :
  (forall p, p ∈ flags -> eligible p) ->
  per_supplier flags s = Ok flags' ->
  forall p, p ∈ flags' -> eligible p.
Proof.
  intros Hf [_ [-> | (Hs & Hl & Hsub)]]%per_supplier_bounds p Hp; [auto|].
  apply Hsub in Hp. apply elem_of_union in Hp as [Hp|Hp]; [auto|].
  unfold labels in Hp. apply elem_of_list_to_set in Hp.
  apply list_elem_of_fmap in Hp as ([k r] & -> & Hin).
  apply elem_of_supplier_rows in Hin as [Hr Hsr]. exists r. subst s.
  now repeat split.
Qed.

Lemma flags_eligible suppliers flags :
  foldM per_supplier ∅ suppliers = Ok flags ->
  forall p, p ∈ flags -> eligible p.
Proof.
  apply (foldM_invariant (fun flags => forall p, p ∈ flags -> eligible p)).
  - intros f s f' _ Hf. now apply per_supplier_eligible.
  - intros p Hp. now apply not_elem_of_empty in Hp.
Qed.

(** The frame returned, read at one label. *)
Lemma with_flags_lookup flags i r :
  rows df !! i = Some r ->
  exists r', rows (with_flags df flags) !! i = Some r' /\
             get "is_duplicate" r' = Flag (bool_decide (i ∈ flags)).
Proof.
  intros Hr. unfold with_flags. cbn [rows]. rewrite list_lookup_imap, Hr.
  eexists. split; [reflexivity|]. apply get_insert_eq.
Qed.

Lemma detect_flags out :
  detect_duplicate_products str_of_float df similarity_threshold = Ok out ->
  exists flags, out = with_flags df flags /\
                forall p, p ∈ flags -> eligible p.
Proof.
  unfold detect_duplicate_products.
  destruct (length (rows df) <? 2)%nat.
  - intros [= <-]. exists ∅. split; [reflexivity|].
    intros p Hp. now apply not_elem_of_empty in Hp.
  - destruct (has_column "supplier_name" df); cbn [negb]; [|discriminate].
    unfold mbind, result_bind.
    destruct (foldM _ _ _) as [flags|] eqn:E; [|discriminate].
    intros [= <-]. exists flags. split; [reflexivity|].
    now apply (flags_eligible _ _ E).
Qed.

Lemma length_le_1_of_same {A} (l : list (nat * A)) (i : nat) :
  NoDup l.*1 -> (forall k r, (k, r) ∈ l -> k = i) -> (length l <= 1)%nat.
Proof.
  destruct l as [|[k1 r1] [|[k2 r2] l]]; cbn; try lia.
  intros [Hk _]%NoDup_cons Hall. exfalso. apply Hk.
  rewrite (Hall k1 r1) by (now left).
  rewrite (Hall k2 r2) by (right; now left). now left.
Qed.

(** A row without a supplier, or alone with its supplier, is never
    flagged. *)
Lemma lone_row_not_flagged out i r :
  detect_duplicate_products str_of_float df similarity_threshold = Ok out ->
  rows df !! i = Some r ->
  isna (supplier r) = true \/
  (forall j r', rows df !! j = Some r' -> supplier r' = supplier r -> j = i) ->
  exists r', rows out !! i = Some r' /\ get "is_duplicate" r' = Flag false.
Proof.
  intros (flags & -> & Hel)%detect_flags Hr Hlone.
  destruct (with_flags_lookup flags i r Hr) as (r' & Hr' & Hd).
  exists r'. split; [exact Hr'|]. rewrite Hd. f_equal.
  apply bool_decide_eq_false. intros Hi.
  destruct (Hel i Hi) as (r0 & Hr0 & Hna & Hlen).
  rewrite Hr in Hr0. injection Hr0 as <-.
  destruct Hlone as [Hm | Hone]; [congruence|].
  assert (length (supplier_rows df (supplier r)) <= 1)%nat; [|lia].
  apply (length_le_1_of_same _ i); [apply NoDup_supplier_rows|].
  intros k r1 [Hk Hs]%elem_of_supplier_rows. now apply (Hone k r1).
Qed.

(** Turns of other suppliers leave the flag of a row as it is. *)
Lemma foldM_per_supplier_other l : forall flags flags',
  foldM per_supplier flags l = Ok flags' ->
  forall p r, rows df !! p = Some r -> supplier r ∉ l ->
              (p ∈ flags' <-> p ∈ flags).
Proof.
  induction l as [|s l IH]; intros flags flags' H p r Hr Hs; simpl in H.
  - now injection H as <-.
  - apply not_elem_of_cons in Hs as [Hne Hs].
    destruct (Similarity.per_supplier _ _ _ _ _) as [f1|] eqn:E; [|discriminate].
    rewrite (IH _ _ H p r Hr Hs).
    apply per_supplier_bounds in E as [Hsub [-> | (_ & _ & Hsup)]];
      [reflexivity|].
    split; [|apply Hsub]. intros Hp. apply Hsup in Hp.
    apply elem_of_union in Hp as [Hp|Hp]; [exact Hp|]. exfalso.
    unfold labels in Hp. apply elem_of_list_to_set in Hp.
    apply list_elem_of_fmap in Hp as ([k r'] & -> & Hin).
    apply elem_of_supplier_rows in Hin as [Hr' Hsr]. cbn in Hr.
    congruence.
Qed.

(** [unique] lists every value once. *)
Lemma elem_of_unique_go l : forall seen c,
  c ∈ unique_go seen l <-> c ∈ l /\ c ∉ seen.
Proof.
  induction l as [|x l IH]; intros seen c; cbn [unique_go].
  - split; [now intros ?%elem_of_nil | now intros [?%elem_of_nil _]].
  - destruct (bool_decide (x ∈ seen)) eqn:E.
    + apply bool_decide_eq_true in E. rewrite IH, elem_of_cons.
      split; [intros [? ?]; split; auto | intros [[-> | ?] ?]; [done | auto]].
    + apply bool_decide_eq_false in E. rewrite !elem_of_cons, IH, elem_of_cons.
      split.
      * intros [-> | [? Hn]]; [auto|]. split; [auto|].
        intros Hc. apply Hn. now right.
      * intros [[-> | Hin] Hn]; [auto|].
        destruct (decide (c = x)) as [-> | Hne]; [auto|].
        right. split; [exact Hin|]. now intros [?|?].
Qed.

Lemma NoDup_unique_go l : forall seen, NoDup (unique_go seen l).
Proof.
  induction l as [|x l IH]; intros seen; cbn [unique_go]; [constructor|].
  destruct (bool_decide (x ∈ seen)); [apply IH|].
  apply NoDup_cons. split; [|apply IH].
  rewrite elem_of_unique_go. intros [_ Hn]. apply Hn. now left.
Qed.

(** Two rows with the same title, holding a word, and the same positive
    price score 1. *)
Lemma same_price_similarity row1 row2 p :
  has_column "numeric_price" df = true ->
  get "numeric_price" row1 = Num p -> get "numeric_price" row2 = Num p ->
  (0 < p)%Q ->
  price_similarity row1 row2 = Ok 1%Q.
Proof.
  intros Hc H1 H2 Hp. unfold Similarity.price_similarity, getitem.
  rewrite Hc, H1, H2. cbn [mbind result_bind isna as_number].
  assert (Hle : Qle_bool p 0 = false).
  { destruct (Qle_bool p 0) eqn:E; [|reflexivity].
    apply Qle_bool_iff in E. now apply Qlt_not_le in Hp. }
  rewrite Hle. f_equal. change 1%Q with (Qred 1). apply Qred_complete.
  assert (E : (1 - Qabs (p - p) / ((p + p) / 2) == 1)%Q).
  { assert (E0 : (Qabs (p - p) == 0)%Q).
    { unfold Qminus. now rewrite Qplus_opp_r. }
    rewrite E0. unfold Qdiv. now rewrite Qmult_0_l. }
  rewrite Q.max_r; [exact E|]. rewrite E. discriminate.
Qed.

Lemma same_title_similarity row1 row2 t :
  has_column "title" df = true ->
  get "title" row1 = Str t -> get "title" row2 = Str t ->
  StrFacts.all Py.isspace t = false ->
  title_similarity row1 row2 = Ok 1%Q.
Proof.
  intros Hc H1 H2 Ht. unfold Similarity.title_similarity, getitem.
  rewrite Hc, H1, H2. cbn [mbind result_bind astype_str].
  now rewrite JaccardFacts.similarity_self.
Qed.

(** The guards of the two loops. *)
Lemma compare_all_flagged sp flags i row1 :
  i ∈ flags -> compare_all sp flags (i, row1) = Ok flags.
Proof.
  intros H. unfold Similarity.compare_all. now rewrite bool_decide_eq_true_2.
Qed.

Lemma compare_all_unflagged sp flags i row1 :
  i ∉ flags ->
  compare_all sp flags (i, row1) = foldM (compare i row1) flags sp.
Proof.
  intros H. unfold Similarity.compare_all. now rewrite bool_decide_eq_false_2.
Qed.

Lemma compare_not_later i row1 flags j row2 :
  (j <= i)%nat -> compare i row1 flags (j, row2) = Ok flags.
Proof.
  intros H. unfold Similarity.compare. now rewrite (proj2 (Nat.leb_le _ _) H).
Qed.

Lemma compare_hit i row1 flags j row2 c t1 t2 :
  (i < j)%nat -> j ∉ flags ->
  combined_similarity row1 row2 = Ok c ->
  Qle_bool similarity_threshold c = true ->
  get "title" row1 = Str t1 -> get "title" row2 = Str t2 ->
  compare i row1 flags (j, row2) = Ok ({[ j ]} ∪ flags).
Proof.
  intros Hij Hj Hc Hthr H1 H2. unfold Similarity.compare.
  rewrite (proj2 (Nat.leb_gt _ _) Hij), bool_decide_eq_false_2 by exact Hj.
  cbn [orb]. rewrite Hc. cbn [mbind result_bind]. now rewrite Hthr, H1, H2.
Qed.

(** The turn of a supplier whose two rows are such a pair flags the
    second. *)
Lemma per_supplier_pair flags s i j ri rj t p :
  supplier_rows df s = [(i, ri); (j, rj)] ->
  isna s = false -> (i < j)%nat -> i ∉ flags -> j ∉ flags ->
  has_column "title" df = true -> has_column "numeric_price" df = true ->
  get "title" ri = Str t -> get "title" rj = Str t ->
  StrFacts.all Py.isspace t = false ->
  get "numeric_price" ri = Num p -> get "numeric_price" rj = Num p ->
  (0 < p)%Q -> (similarity_threshold <= 1)%Q ->
  per_supplier flags s = Ok ({[ j ]} ∪ flags).
Proof.
  intros Hsp Hs Hij Hi Hj Hct Hcp Hti Htj Ht Hpi Hpj Hp Hthr.
  assert (Hc : combined_similarity ri rj = Ok 1%Q).
  { unfold Similarity.combined_similarity.
    rewrite (same_title_similarity ri rj t), (same_price_similarity ri rj p)
      by assumption.
    reflexivity. }
  unfold Similarity.per_supplier. rewrite Hs, Hsp. cbn [length Nat.ltb Nat.leb].
  cbn [foldM]. rewrite compare_all_unflagged by exact Hi.
  cbn [foldM]. rewrite compare_not_later by lia. cbn [mbind result_bind].
  rewrite (compare_hit i ri flags j rj 1%Q t t); try assumption;
    [|now apply Qle_bool_iff].
  cbn [mbind result_bind]. rewrite compare_all_flagged by set_solver.
  reflexivity.
Qed.

(** The rows that satisfy a condition, when they are one or two. *)
Lemma filter_labelled_none (P : row -> Prop) `{forall r, Decision (P r)}
    (g : nat -> nat) (rs : list row) :
  (forall k r, rs !! k = Some r -> ~ P r) ->
  filter (fun ir : nat * row => P ir.2) (imap (fun n r => (g n, r)) rs) = [].
Proof.
  revert g. induction rs as [|x rs IH]; intros g Hall; [reflexivity|].
  rewrite imap_cons, filter_cons_False by (exact (Hall 0%nat x eq_refl)).
  apply (IH (g ∘ S)). intros k r Hk. exact (Hall (S k) r Hk).
Qed.

Lemma filter_labelled_one (P : row -> Prop) `{forall r, Decision (P r)}
    (rs : list row) : forall (g : nat -> nat) j rj,
  rs !! j = Some rj -> P rj ->
  (forall k r, rs !! k = Some r -> P r -> k = j) ->
  filter (fun ir : nat * row => P ir.2) (imap (fun n r => (g n, r)) rs)
  = [(g j, rj)].
Proof.
  induction rs as [|x rs IH]; intros g j rj Hj Pj Hall; [discriminate|].
  rewrite imap_cons. destruct j as [|j].
  - injection Hj as ->. rewrite filter_cons_True by exact Pj. f_equal.
    apply (filter_labelled_none P (g ∘ S)). intros k r Hk Pk.
    now specialize (Hall (S k) r Hk Pk).
  - rewrite filter_cons_False.
    + apply (IH (g ∘ S) j rj Hj Pj). intros k r Hk Pk.
      specialize (Hall (S k) r Hk Pk). lia.
    + intros Px. now specialize (Hall 0%nat x eq_refl Px).
Qed.

Lemma filter_labelled_two (P : row -> Prop) `{forall r, Decision (P r)}
    (rs : list row) : forall (g : nat -> nat) i j ri rj,
  (i < j)%nat -> rs !! i = Some ri -> rs !! j = Some rj -> P ri -> P rj ->
  (forall k r, rs !! k = Some r -> P r -> k = i \/ k = j) ->
  filter (fun ir : nat * row => P ir.2) (imap (fun n r => (g n, r)) rs)
  = [(g i, ri); (g j, rj)].
Proof.
  induction rs as [|x rs IH]; intros g i j ri rj Hij Hi Hj Pi Pj Hall;
    [discriminate|].
  rewrite imap_cons. destruct j as [|j]; [lia|]. destruct i as [|i].
  - injection Hi as ->. rewrite filter_cons_True by exact Pi. f_equal.
    apply (filter_labelled_one P rs (g ∘ S) j rj Hj Pj). intros k r Hk Pk.
    specialize (Hall (S k) r Hk Pk). lia.
  - rewrite filter_cons_False.
    + apply (IH (g ∘ S) i j ri rj); [lia | assumption..|].
      intros k r Hk Pk. specialize (Hall (S k) r Hk Pk). lia.
    + intros Px. specialize (Hall 0%nat x eq_refl Px). lia.
Qed.

Lemma supplier_rows_two s i j ri rj :
  (i < j)%nat -> rows df !! i = Some ri -> rows df !! j = Some rj ->
  supplier ri = s -> supplier rj = s ->
  (forall k r, rows df !! k = Some r -> supplier r = s -> k = i \/ k = j) ->
  supplier_rows df s = [(i, ri); (j, rj)].
Proof.
  intros Hij Hi Hj Hsi Hsj Hall. unfold supplier_rows, iterrows.
  exact (filter_labelled_two (fun r => get "supplier_name" r = s)
           (rows df) (fun n => n) i j ri rj Hij Hi Hj Hsi Hsj Hall).
Qed.

(** Two rows, alone with their supplier, with the same title holding a
    word and the same positive price: the later one is flagged and the
    earlier is not. *)
Lemma pair_flags_the_later out i j ri rj t p :
  detect_duplicate_products str_of_float df similarity_threshold = Ok out ->
  (i < j)%nat -> rows df !! i = Some ri -> rows df !! j = Some rj ->
  isna (supplier ri) = false -> supplier rj = supplier ri ->
  (forall k r, rows df !! k = Some r -> supplier r = supplier ri ->
               k = i \/ k = j) ->
  has_column "title" df = true -> has_column "numeric_price" df = true ->
  get "title" ri = Str t -> get "title" rj = Str t ->
  StrFacts.all Py.isspace t = false ->
  get "numeric_price" ri = Num p -> get "numeric_price" rj = Num p ->
  (0 < p)%Q -> (similarity_threshold <= 1)%Q ->
  (exists r', rows out !! i = Some r' /\ get "is_duplicate" r' = Flag false) /\
  (exists r', rows out !! j = Some r' /\ get "is_duplicate" r' = Flag true).
Proof.
  intros Hout Hij Hi Hj Hs Hsj Honly Hct Hcp Hti Htj Ht Hpi Hpj Hp Hthr.
  set (s := supplier ri) in *.
  assert (Hflags : exists flags, out = with_flags df flags /\
                                 i ∉ flags /\ j ∈ flags).
  { unfold detect_duplicate_products in Hout.
    apply lookup_lt_Some in Hj as Hlen.
    rewrite (proj2 (Nat.ltb_ge _ _)) in Hout by lia.
    destruct (has_column "supplier_name" df); cbn [negb] in Hout;
      [|discriminate].
    unfold mbind, result_bind in Hout.
    destruct (foldM _ _ _) as [flags|] eqn:E; [|discriminate].
    injection Hout as <-. exists flags. split; [reflexivity|].
    assert (Hin : s ∈ unique (get "supplier_name" <$> rows df)).
    { apply elem_of_unique_go. split; [|now intros ?%elem_of_nil].
      apply list_elem_of_fmap. exists ri. split; [reflexivity|].
      now apply list_elem_of_lookup_2 in Hi. }
    apply list_elem_of_split in Hin as (l1 & l2 & Hl).
    pose proof (NoDup_unique_go (get "supplier_name" <$> rows df) []) as Hnd.
    fold (unique (get "supplier_name" <$> rows df)) in Hnd.
    rewrite Hl in Hnd, E. apply NoDup_app in Hnd as (_ & Hl1 & Hnd).
    apply NoDup_cons in Hnd as [Hl2 _].
    assert (Hl1' : s ∉ l1) by (intros H; apply (Hl1 s H); now left).
    rewrite foldM_app in E. unfold mbind, result_bind in E.
    destruct (foldM per_supplier ∅ l1) as [f1|] eqn:E1; [|discriminate].
    cbn [foldM] in E. unfold mbind, result_bind in E.
    assert (Hi1 : i ∉ f1).
    { rewrite (foldM_per_supplier_other l1 _ _ E1 i ri Hi Hl1').
      apply not_elem_of_empty. }
    assert (Hj1 : j ∉ f1).
    { rewrite (foldM_per_supplier_other l1 _ _ E1 j rj Hj); [|now rewrite Hsj].
      apply not_elem_of_empty. }
    rewrite (per_supplier_pair f1 s i j ri rj t p) in E; try assumption;
      [|now apply supplier_rows_two].
    split.
    - rewrite (foldM_per_supplier_other l2 _ _ E i ri Hi Hl2).
      rewrite elem_of_union, elem_of_singleton. intros [-> | ?]; [lia | auto].
    - rewrite (foldM_per_supplier_other l2 _ _ E j rj Hj); [|now rewrite Hsj].
      apply elem_of_union. left. now apply elem_of_singleton. }
  destruct Hflags as (flags & -> & Hfi & Hfj).
  destruct (with_flags_lookup flags i ri Hi) as (r1 & Hr1 & Hd1).
  destruct (with_flags_lookup flags j rj Hj) as (r2 & Hr2 & Hd2).
  split; [exists r1 | exists r2]; (split; [assumption|]).
  - now rewrite Hd1, bool_decide_eq_false_2.
  - now rewrite Hd2, bool_decide_eq_true_2.
Qed.

(** The score of a pair is eight tenths of the title similarity plus two
    tenths of the price similarity. *)
Lemma combined_similarity_ok row1 row2 c :
  combined_similarity row1 row2 = Ok c <->
  exists ts ps, title_similarity row1 row2 = Ok ts /\
                price_similarity row1 row2 = Ok ps /\
                c = Qred (ts * (8 # 10) + ps * (2 # 10)).
Proof.
  unfold Similarity.combined_similarity, mbind, result_bind.
  destruct (Similarity.title_similarity _ _ _ _) as [ts|].
  - destruct (Similarity.price_similarity _ _ _) as [ps|].
    + split; [intros [= <-]; now exists ts, ps|].
      now intros (? & ? & [= <-] & [= <-] & ->).
    + split; [discriminate | now intros (? & ? & _ & ? & _)].
  - split; [discriminate | now intros (? & ? & ? & _)].
Qed.

(** One comparison changes the flag of the later row only, and sets it
    exactly when the rows are in order, the later one is not flagged yet and
    the score reaches the threshold. *)
Lemma compare_precisely i row1 flags j row2 flags' :
  compare i row1 flags (j, row2) = Ok flags' ->
  (forall k, k <> j -> (k ∈ flags' <-> k ∈ flags)) /\
  (j ∈ flags' /\ j ∉ flags <->
   (i < j)%nat /\ j ∉ flags /\
   exists ts ps, title_similarity row1 row2 = Ok ts /\
                 price_similarity row1 row2 = Ok ps /\
                 (similarity_threshold <= ts * (8 # 10) + ps * (2 # 10))%Q).
Proof.
  intros H. split.
  - intros k Hk. apply compare_step in H as [-> | (-> & _)]; [reflexivity|].
    rewrite elem_of_union, elem_of_singleton. split; [now intros [?|?] | auto].
  - split.
    + intros [Hin Hout].
      apply compare_step in H as [-> | (-> & Hij & _ & c & Hc & Hthr)];
        [contradiction|].
      split; [exact Hij|]. split; [exact Hout|].
      apply combined_similarity_ok in Hc as (ts & ps & Hts & Hps & ->).
      exists ts, ps. split; [exact Hts|]. split; [exact Hps|].
      apply Qle_bool_iff in Hthr. now rewrite Qred_correct in Hthr.
    + intros (Hij & Hout & ts & ps & Hts & Hps & Hthr).
      split; [|exact Hout]. unfold Similarity.compare in H.
      rewrite (proj2 (Nat.leb_gt _ _) Hij), bool_decide_eq_false_2 in H
        by exact Hout.
      cbn [orb] in H.
      rewrite (proj2 (combined_similarity_ok row1 row2 _)) in H
        by (exists ts, ps; auto).
      unfold mbind, result_bind in H.
      rewrite (proj2 (Qle_bool_iff _ _)) in H by now rewrite Qred_correct.
      destruct (slice50 _); [|discriminate].
      destruct (slice50 _); [|discriminate].
      injection H as <-. apply elem_of_union. left. now apply elem_of_singleton.
Qed.

(** A frame whose titles are texts and whose prices are numbers or
    absent. *)
Definition typed_row (r : row) : Prop :=
  (exists t, get "title" r = Str t) /\
  (get "numeric_price" r = Missing \/ exists q, get "numeric_price" r = Num q).

Lemma compare_total i row1 flags j row2 :
  has_column "title" df = true -> has_column "numeric_price" df = true ->
  typed_row row1 -> typed_row row2 ->
  exists flags', compare i row1 flags (j, row2) = Ok flags'.
Proof.
  intros Hct Hcp [[t1 Ht1] Hp1] [[t2 Ht2] Hp2]. unfold Similarity.compare.
  destruct (_ || _); [eauto|].
  assert (Hc : exists c, combined_similarity row1 row2 = Ok c).
  { unfold Similarity.combined_similarity, Similarity.title_similarity,
      Similarity.price_similarity, getitem.
    rewrite Hct, Hcp. cbn [mbind result_bind].
    destruct Hp1 as [-> | [q1 ->]]; cbn [isna mbind result_bind]; [eauto|].
    destruct Hp2 as [-> | [q2 ->]];
      cbn [isna mbind result_bind as_number]; [eauto|].
    destruct (Qle_bool q1 0); [eauto|]. destruct (Qle_bool q2 0); eauto. }
  destruct Hc as [c ->]. cbn [mbind result_bind].
  destruct (Qle_bool _ _); [|eauto]. rewrite Ht1, Ht2. cbn. eauto.
Qed.

Lemma detect_total :
  has_column "supplier_name" df = true ->
  has_column "title" df = true -> has_column "numeric_price" df = true ->
  Forall typed_row (rows df) ->
  exists out,
    detect_duplicate_products str_of_float df similarity_threshold = Ok out.
Proof.
  intros Hcs Hct Hcp Hrows. unfold detect_duplicate_products.
  destruct (_ <? _)%nat; [eauto|]. rewrite Hcs. cbn [negb].
  assert (Htyped : forall s k r, (k, r) ∈ supplier_rows df s -> typed_row r).
  { intros s k r [Hr _]%elem_of_supplier_rows.
    rewrite Forall_forall in Hrows. apply Hrows.
    now apply list_elem_of_lookup_2 in Hr. }
  destruct (foldM_total per_supplier
              (unique (get "supplier_name" <$> rows df))) with (s := (∅ : gset nat))
    as [flags ->]; [|cbn; eauto].
  intros flags s _. unfold Similarity.per_supplier.
  destruct (isna s); [eauto|]. destruct (_ <? _)%nat; [eauto|].
  apply foldM_total. intros f1 [i row1] Hi. unfold Similarity.compare_all.
  destruct (bool_decide _); [eauto|].
  apply foldM_total. intros f2 [j row2] Hj.
  apply compare_total; eauto.
Qed.

End Detect.


Definition product (title supplier_name numeric_price : cell) : row :=
  {[ "title" := title; "supplier_name" := supplier_name;
     "numeric_price" := numeric_price ]}.

Definition pipes : DataFrame :=
  {| columns := ["title"; "supplier_name"; "numeric_price"];
     rows := [ product (Str "Steel Pipe") (Str "ACME") (Num 10);
               product (Str "Copper Wire") Missing (Num 10);
               product (Str "Steel Pipe") (Str "ACME") (Num 10) ] |}.


Definition untitled : DataFrame :=
  {| columns := ["title"; "supplier_name"; "numeric_price"];
     rows := [ product (Str "") (Str "ACME") (Num 10);
               product (Str "") (Str "ACME") (Num 10) ] |}.


End SimilarityFacts.

(** * Further properties of the code *)

(** ** Numbers in price texts *)

Module NumberFacts.
Import Re ReFacts StrFacts MatchFacts Utils.

#[local] Hint Constructors matches : core.

(** [mentions i r]: the pattern has a group numbered [i]. *)
Fixpoint mentions (i : nat) (r : regex) : bool :=
  match r with
  | Grp j r' => (i =? j)%nat || mentions i r'
  | Seq r1 r2 | Alt r1 r2 => mentions i r1 || mentions i r2
  | Star r' => mentions i r'
  | _ => false
  end.

(** A match leaves the groups its pattern does not have as they were. *)
Lemma groups_kept i r s g s' g' :
  matches r s g s' g' -> mentions i r = false -> g' !! i = g !! i.
Proof.
  induction 1 as [s g|p c s g Hp|r1 r2 s g s1 g1 s2 g2 _ IH1 _ IH2
                 |r1 r2 s g s' g' _ IH|r1 r2 s g s' g' _ IH
                 |r s g|r s g s1 g1 s2 g2 _ IH1 _ _ IH2
                 |j r s g s1 g1 _ IH|s g He]; cbn [mentions]; intros Hm;
    try reflexivity.
  - apply orb_false_elim in Hm as [H1 H2]. now rewrite IH2, IH1.
  - apply orb_false_elim in Hm as [H1 H2]. now apply IH.
  - apply orb_false_elim in Hm as [H1 H2]. now apply IH.
  - now rewrite (IH2 Hm), IH1.
  - apply orb_false_elim in Hm as [H1 H2]. apply Nat.eqb_neq in H1.
    rewrite lookup_insert_ne by congruence. now apply IH.
Qed.

(** The text between a string and one of its suffixes. *)
Lemma take_consumed w s' :
  Py.take (String.length (w ++ s') - String.length s') (w ++ s') = w.
Proof.
  rewrite length_app.
  replace (String.length w + String.length s' - String.length s')%nat
    with (String.length w) by lia.
  apply take_app.
Qed.

Definition digit_or_comma (c : ascii) : bool :=
  Py.isdigit c || Ascii.eqb c ",".

(** A numeral: digits and commas after a first digit, then nothing or a dot
    and digits. *)
Definition numeral (w : string) : Prop :=
  exists d ip fr,
    w = (String d ip ++ fr)%string /\
    Py.isdigit d = true /\ all digit_or_comma ip = true /\
    (fr = "" \/ exists f fs, fr = String "." (String f fs) /\
                             all Py.isdigit (String f fs) = true).

Lemma matches_comma_groups s g s' g' :
  matches (Star (Chr (Ascii.eqb ",") ⋅ digits)) s g s' g' ->
  g' = g /\ exists w, s = (w ++ s')%string /\ all digit_or_comma w = true.
Proof.
  remember (Star (Chr (Ascii.eqb ",") ⋅ digits)) as r eqn:Er. intros H.
  induction H as [| | | | |r s g|r s g s1 g1 s2 g2 H1 _ _ _ IH| |];
    try discriminate; injection Er as ->.
  - split; [reflexivity|]. now exists "".
  - destruct (IH eq_refl) as (-> & w2 & -> & Hw2).
    inversion H1 as [| |? ? ? ? sa ga ? ? Ha Hb| | | | | |]; subst.
    inversion Ha; subst.
    apply matches_plus_chr in Hb as (-> & d & w1 & -> & Hd & Hw1).
    split; [reflexivity|].
    exists (String c (String d w1) ++ w2)%string. split.
    + rewrite !app_cons. now rewrite app_assoc.
    + rewrite all_app, Hw2, andb_true_r. cbn [all]. unfold digit_or_comma.
      match goal with H : Ascii.eqb "," c = true |- _ =>
        apply Ascii.eqb_eq in H; subst c end.
      cbn [Ascii.eqb]. rewrite Hd. cbn [orb andb].
      eapply all_impl; [|exact Hw1]. intros x Hx. now rewrite Hx.
Qed.

Lemma matches_fraction s g s' g' :
  matches (Opt (Chr (Ascii.eqb ".") ⋅ digits)) s g s' g' ->
  g' = g /\ exists fr, s = (fr ++ s')%string /\
    (fr = "" \/ exists f fs, fr = String "." (String f fs) /\
                             all Py.isdigit (String f fs) = true).
Proof.
  unfold Opt. intros H. inversion H as [| | |? ? ? ? ? ? Hl|? ? ? ? ? ? Hr| | | |]; subst.
  - inversion Hl as [| |? ? ? ? sa ga ? ? Ha Hb| | | | | |]; subst.
    inversion Ha; subst.
    apply matches_plus_chr in Hb as (-> & f & fs & -> & Hf & Hfs).
    split; [reflexivity|].
    match goal with H : Ascii.eqb "." c = true |- _ =>
      apply Ascii.eqb_eq in H; subst c end.
    exists (String "." (String f fs)). split; [reflexivity|]. right.
    exists f, fs. split; [reflexivity|]. cbn [all]. now rewrite Hf, Hfs.
  - inversion Hr; subst. split; [reflexivity|]. exists "". now split; [|left].
Qed.

(** What [number] matches is a numeral. *)
Lemma matches_number s g s' g' :
  matches number s g s' g' ->
  g' = g /\ exists w, s = (w ++ s')%string /\ numeral w.
Proof.
  unfold number. intros H.
  inversion H as [| |? ? ? ? s1 g1 ? ? H1 H23| | | | | |]; subst.
  inversion H23 as [| |? ? ? ? s2 g2 ? ? H2 H3| | | | | |]; subst.
  apply matches_plus_chr in H1 as (-> & d & w1 & -> & Hd & Hw1).
  apply matches_comma_groups in H2 as (-> & w2 & -> & Hw2).
  apply matches_fraction in H3 as (-> & fr & -> & Hfr).
  split; [reflexivity|].
  exists (String d (w1 ++ w2) ++ fr)%string. split.
  - rewrite !app_cons. now rewrite !app_assoc.
  - exists d, (w1 ++ w2)%string, fr. split; [reflexivity|].
    split; [exact Hd|]. split; [|exact Hfr].
    rewrite all_app, Hw2, andb_true_r.
    eapply all_impl; [|exact Hw1]. intros x Hx. unfold digit_or_comma.
    now rewrite Hx.
Qed.

Lemma matches_grp_number i s g s' g' :
  matches (Grp i number) s g s' g' ->
  exists w, g' = <[i := w]> g /\ numeral w.
Proof.
  intros H. inversion H as [| | | | | | |? ? ? ? ? g1 H1|]; subst.
  apply matches_number in H1 as (-> & w & -> & Hw).
  exists w. now rewrite take_consumed.
Qed.

(** [float] reads every numeral, commas removed, as a number that is not
    negative. *)
Lemma digits_value_nonneg s : forall acc n,
  (0 <= acc)%Z -> digits_value acc s = Some n -> (0 <= n)%Z.
Proof.
  induction s as [|c s IH]; intros acc n Hacc; simpl.
  - now intros [= <-].
  - destruct (Py.isdigit c) eqn:Hc; [|discriminate].
    apply IH. unfold Py.isdigit, Py.between in Hc.
    apply andb_prop in Hc as [H1 _]. apply N.leb_le in H1. lia.
Qed.

Lemma remove_comma_digits s :
  all digit_or_comma s = true -> all Py.isdigit (Py.remove_char "," s) = true.
Proof.
  induction s as [|c s IH]; [reflexivity|].
  cbn [all Py.remove_char]. intros [Hc Hs]%andb_prop.
  unfold digit_or_comma in Hc. destruct (Ascii.eqb c ",") eqn:E; [auto|].
  rewrite orb_false_r in Hc. cbn [all]. now rewrite Hc, IH.
Qed.

Lemma remove_char_app x a b :
  Py.remove_char x (a ++ b) = (Py.remove_char x a ++ Py.remove_char x b)%string.
Proof.
  induction a as [|c a IH]; [reflexivity|].
  rewrite app_cons. cbn [Py.remove_char].
  destruct (Ascii.eqb c x); [exact IH|]. rewrite app_cons. now f_equal.
Qed.

Lemma split_dot_app ds rest :
  all Py.isdigit ds = true ->
  split_dot (ds ++ String "." rest) = (ds, Some rest).
Proof.
  induction ds as [|c ds IH]; [reflexivity|].
  rewrite app_cons. cbn [all split_dot]. intros [Hc Hs]%andb_prop.
  rewrite (PriceFacts.digit_not_dot _ Hc), (IH Hs). reflexivity.
Qed.

Lemma float_numeral w :
  numeral w -> exists v, float (Py.remove_char "," w) = Ok v /\ (0 <= v)%Q.
Proof.
  intros (d & ip & fr & -> & Hd & Hip & Hfr).
  rewrite remove_char_app. cbn [Py.remove_char].
  rewrite (proj1 (negb_true_iff _) (PriceFacts.digit_not_comma _ Hd)).
  set (D := String d (Py.remove_char "," ip)).
  assert (HD : all Py.isdigit D = true)
    by (unfold D; cbn [all]; now rewrite Hd, remove_comma_digits).
  destruct (PriceFacts.digits_value_some D 0 HD) as [n Hn].
  assert (Hn0 : (0 <= n)%Z) by (now apply (digits_value_nonneg D 0)).
  destruct Hfr as [-> | (f & fs & -> & Hf)].
  - cbn [Py.remove_char]. rewrite app_empty_r.
    exists (inject_Z n). split.
    + now apply PriceFacts.float_digits.
    + change 0%Q with (inject_Z 0). now rewrite <- Zle_Qle.
  - assert (Hfr : Py.remove_char "," (String "." (String f fs))
                  = String "." (String f fs)).
    { apply remove_char_id. cbn [all]. cbn [all] in Hf.
      apply andb_prop in Hf as [Hf1 Hf2].
      rewrite (PriceFacts.digit_not_comma _ Hf1). cbn.
      eapply all_impl; [|exact Hf2]. apply PriceFacts.digit_not_comma. }
    destruct (PriceFacts.digits_value_some (String f fs) 0 Hf) as [m Hm].
    assert (Hm0 : (0 <= m)%Z)
      by (now apply (digits_value_nonneg (String f fs) 0 m)).
    rewrite Hfr. unfold float. rewrite split_dot_app by exact HD.
    subst D. cbv beta iota. rewrite Hn, Hm.
    eexists. split; [reflexivity|]. rewrite Qred_correct.
    apply Qle_trans with (inject_Z n + 0)%Q.
    + rewrite Qplus_0_r. change 0%Q with (inject_Z 0). now rewrite <- Zle_Qle.
    + apply Qplus_le_r. unfold Qle. cbn. lia.
Qed.

Ltac invert_seq :=
  repeat match goal with
  | H : matches (Seq _ _) _ _ _ _ |- _ => inversion H; subst; clear H
  end.

(** The groups of the two price patterns of [clean_price_text] hold
    numerals. *)
Lemma range_pattern_groups t m :
  search range_pattern t = Some m ->
  exists w1 w2, m !! 1%nat = Some w1 /\ m !! 2%nat = Some w2 /\
                numeral w1 /\ numeral w2.
Proof.
  intros (a & u & s' & -> & Hm)%search_sound. unfold range_pattern in Hm.
  inversion Hm as [| |? ? ? ? s1 g1 ? ? _ H1| | | | | |]; subst.
  inversion H1 as [| |? ? ? ? s2 g2 ? ? _ H2| | | | | |]; subst.
  inversion H2 as [| |? ? ? ? s3 g3 ? ? Hg1 Hrest| | | | | |]; subst.
  apply matches_grp_number in Hg1 as (w1 & -> & Hw1).
  pose proof (groups_kept 1 _ _ _ _ _ Hrest eq_refl) as Hkept.
  rewrite lookup_insert_eq in Hkept.
  invert_seq.
  match goal with H : matches (Grp 2 number) _ _ _ _ |- _ =>
    apply matches_grp_number in H as (w2 & -> & Hw2) end.
  exists w1, w2. split; [exact Hkept|]. split; [apply lookup_insert_eq|].
  now split.
Qed.

Lemma price_pattern_group t m :
  search price_pattern t = Some m ->
  exists w, m !! 1%nat = Some w /\ numeral w.
Proof.
  intros (a & u & s' & -> & Hm)%search_sound. unfold price_pattern in Hm.
  invert_seq.
  match goal with H : matches (Grp 1 number) _ _ _ _ |- _ =>
    apply matches_grp_number in H as (w & -> & Hw) end.
  exists w. split; [apply lookup_insert_eq | exact Hw].
Qed.

Lemma mean_nonneg lo hi :
  (0 <= lo)%Q -> (0 <= hi)%Q -> (0 <= Qred ((lo + hi) / 2))%Q.
Proof.
  intros Hlo Hhi. rewrite Qred_correct. apply Qle_shift_div_l; [reflexivity|].
  rewrite Qmult_0_l. change 0%Q with (0 + 0)%Q. now apply Qplus_le_compat.
Qed.


(** A literal matches itself only. *)
Lemma matches_lit w : forall s g s' g',
  matches (Lit w) s g s' g' -> s = (w ++ s')%string /\ g' = g.
Proof.
  induction w as [|c w IH]; intros s g s' g' H; cbn [Lit] in H.
  - inversion H; subst. now split.
  - inversion H as [| |? ? ? ? s1 g1 ? ? H1 H2| | | | | |]; subst.
    inversion H1 as [|? x ? ? Hx| | | | | | |]; subst.
    apply Ascii.eqb_eq in Hx. subst x.
    apply IH in H2 as [-> ->]. now split.
Qed.

Lemma startswith_app w s : Py.startswith w (w ++ s) = true.
Proof.
  induction w as [|c w IH]; [reflexivity|].
  rewrite app_cons. cbn [Py.startswith]. now rewrite Ascii.eqb_refl, IH.
Qed.

Lemma contains_app w a s :
  Py.startswith w s = true -> Py.contains w (a ++ s) = true.
Proof.
  intros H. induction a as [|c a IH].
  - rewrite app_nil_l. destruct s; cbn [Py.contains]; now rewrite H.
  - rewrite app_cons. cbn [Py.contains]. rewrite IH. apply orb_true_r.
Qed.

(** The price pattern of the scraper finds a number only behind the two
    characters it starts with. *)
Lemma scraper_price_pattern_group t m :
  search Scraper.price_pattern t = Some m ->
  Py.contains "â‚" t = true /\ exists w, m !! 1%nat = Some w /\ numeral w.
Proof.
  intros (a & u & s' & -> & Hm)%search_sound.
  unfold Scraper.price_pattern in Hm.
  inversion Hm as [| |? ? ? ? s1 g1 ? ? Hl Hrest| | | | | |]; subst.
  apply (matches_lit "â‚") in Hl as [-> ->]. split.
  - apply contains_app, startswith_app.
  - invert_seq.
    match goal with H : matches (Grp 1 number) _ _ _ _ |- _ =>
      apply matches_grp_number in H as (w & -> & Hw) end.
    exists w. split; [apply lookup_insert_eq | exact Hw].
Qed.


(** On the price texts of the marketplace, written with the rupee sign, the
    scraper reads no price where [clean_price_text] reads one. *)
Example extract_price_rupee :
  Scraper.numeric_price <$>
    match Scraper.extract_price "₹1,200 per Kg" with
    | Ok p => Some p | Raise _ => None end = Some None /\
  numeric_price <$>
    match clean_price_text "₹1,200 per Kg" with
    | Ok p => Some p | Raise _ => None end = Some (Some 1200%Q).
Proof. vm_compute. split; reflexivity. Qed.

End NumberFacts.
